(** * FireFly transaction manager: nonce allocator, history tracker, policy loop

    A shallow embedding of the simple transaction handler's nonce allocator
    ([assignAndLockNonce], [calcNextNonce], [lockedNonce.complete]) together
    with the collaborators it is specified against and the configuration
    defaults of [tmconfig], the properties the specification states about
    them, and further properties of the allocator: its errors and bounds,
    and the lock under any interleaving of its callers. *)

From Stdlib Require Import ZArith Lia List Bool.
From stdpp Require Import gmap strings list fin_maps pretty.
Import ListNotations.

Local Open Scope Z_scope.

(** ** Go values *)

(** A Go [(value, error)] return: exactly one side is meaningful. *)
Inductive result (A : Type) : Type :=
| Ok (a : A)
| Err (e : string).
Arguments Ok {A} a.
Arguments Err {A} e.

(** [uint64] values are integers in [0, 2^64); arithmetic wraps. *)
Definition uint64_modulus : Z := 2 ^ 64.

Definition add64 (a b : Z) : Z := (a + b) mod uint64_modulus.

(** [FFBigInt.Uint64] (firefly-common's [fftypes], not in the sources): the
    value itself when it is a [uint64], and 0 when it is negative or does
    not fit in 64 bits. *)
Definition Uint64 (i : Z) : Z :=
  if (0 <=? i) && (i <? uint64_modulus) then i else 0.

(** [time.Duration] is a signed 64-bit count of nanoseconds; [Time.Sub]
    saturates at its bounds, and [time.Since] of [t] is [now.Sub] of [t]. *)
Definition minDuration : Z := - 2 ^ 63.
Definition maxDuration : Z := 2 ^ 63 - 1.

Definition time_Since (now t : Z) : Z :=
  Z.max minDuration (Z.min maxDuration (now - t)).

(** ** Persistence interface (internal/persistence/persistence.go) *)

(** [type SortDirection int] with the two [iota] constants. *)
Definition SortDirection : Type := Z.
Definition SortDirectionAscending : SortDirection := 0.
Definition SortDirectionDescending : SortDirection := 1.

(** ** Managed transactions (pkg/apitypes, declarations not in the sources)

    The records follow section 3 and 4.2 of the specification and the field
    names the repository's tests use.  Times are nanoseconds; JSON values are
    their text. *)

Module TxHistoryActionEntry.
(** Modelled from the spec: [apitypes.TxHistoryActionEntry], an action row
    of a history entry. *)
Record t : Type := mk {
  Action : string;
  Count : Z;
  FirstOccurrence : Z;
  LastOccurrence : Z;
  LastInfo : option string;
  LastError : option string;
  LastErrorTime : option Z
}.
End TxHistoryActionEntry.

Module TxHistoryStateTransitionEntry.
(** Modelled from the spec: [apitypes.TxHistoryStateTransitionEntry], an
    entry of the history: a sub-status, its time and its actions. *)
Record t : Type := mk {
  Status : string;
  Time : Z;
  Actions : list TxHistoryActionEntry.t
}.
End TxHistoryStateTransitionEntry.

Module TxHistorySummaryEntry.
(** Modelled from the spec: [apitypes.TxHistorySummaryEntry], a row of the
    summary, for a sub-status or for an action. *)
Record t : Type := mk {
  Status : string;   (* empty for an action row *)
  Action : string;   (* empty for a status row *)
  FirstOccurrence : Z;
  LastOccurrence : Z;
  Count : Z
}.
End TxHistorySummaryEntry.

(** Modelled from the spec: [ffcapi.TransactionReceiptResponse], the block
    number, the index and the success flag of a receipt. *)
Record TransactionReceiptResponse : Type := mkReceipt {
  BlockNumber : Z;
  TransactionIndex : Z;
  Success : bool
}.

(** Modelled from the spec: [apitypes.TxStatus], section 3. *)
Inductive TxStatus : Type :=
| TxStatusPending | TxStatusSucceeded | TxStatusFailed | TxStatusSuspended.

(** Modelled from the spec: [apitypes.ManagedTX], the fields that the
    allocator, the history tracker and the policy loop read and write: the
    identifier, the signer ([TransactionHeaders.From]), the nonce (an
    arbitrary-precision integer), the status, the hash of the most recent
    submission, the submission times, the last receipt and the two history
    lists. *)
Record ManagedTX : Type := mkManagedTX {
  ID : string;
  Created : Z;
  From : string;
  Nonce : Z;
  Status : TxStatus;
  TransactionHash : string;
  FirstSubmit : option Z;
  LastSubmit : option Z;
  Receipt : option TransactionReceiptResponse;
  History : list TxHistoryStateTransitionEntry.t;
  HistorySummary : list TxHistorySummaryEntry.t
}.

(** ** The nonce allocator (simple transaction handler) *)

Module Nonces.

(** The two collaborators [calcNextNonce] talks to, as the toolkit exposes
    them: the transaction persistence and the blockchain connector. *)
Record Toolkit : Type := mkToolkit {
  ListTransactionsByNonce :
    string -> option Z -> Z -> SortDirection -> result (list ManagedTX);
  NextNonceForSigner : string -> result Z
}.

(** Calls made to the collaborators, in program order. *)
Inductive call : Type :=
| CallListTransactionsByNonce
    (signer : string) (after : option Z) (limit : Z) (dir : SortDirection)
| CallNextNonceForSigner (signer : string).

(** [calcNextNonce]: the calls it makes and the [(uint64, error)] it returns.
    [now] is the reading of the clock taken by [time.Since]. *)
Definition calcNextNonce (toolkit : Toolkit) (nonceStateTimeout now : Z)
    (signer : string) : list call * result Z :=
  let q := CallListTransactionsByNonce signer None 1 1 in
  match ListTransactionsByNonce toolkit signer None 1 1 with
  | Err e => ([q], Err e)
  | Ok txns =>
    let lastTxn := head txns in
    let fresh :=
      match lastTxn with
      | Some l => time_Since now (Created l) <? nonceStateTimeout
      | None => false
      end in
    match lastTxn, fresh with
    | Some l, true => ([q], Ok (add64 (Uint64 (Nonce l)) 1))
    | _, _ =>
      let c := CallNextNonceForSigner signer in
      match NextNonceForSigner toolkit signer with
      | Err e => ([q; c], Err e)
      | Ok nextNonceRes =>
        let nextNonce := Uint64 nextNonceRes in
        match lastTxn with
        | Some l =>
          if nextNonce <=? Uint64 (Nonce l)
          then ([q; c], Ok (add64 (Uint64 (Nonce l)) 1))
          else ([q; c], Ok nextNonce)
        | None => ([q; c], Ok nextNonce)
        end
      end
    end
  end.

(** What a call does to the state it runs on: it returns, it panics (the state
    is the one at the panic), it cannot proceed now, or the bound given to a
    run was used up. *)
Inductive outcome (A : Type) : Type :=
| Returns (a : A)
| Panics (a : A)
| Blocks
| OutOfFuel.
Arguments Returns {A} a.
Arguments Panics {A} a.
Arguments Blocks {A}.
Arguments OutOfFuel {A}.

(** A [chan struct{}] that is never sent on: all that matters is whether it
    has been closed.  A receive blocks while it is open and returns at once,
    for every receiver, when it is closed. *)
Inductive chan : Type := ChanOpen | ChanClosed.

(** The struct behind a [*lockedNonce].  The back pointer [th] is the
    handler the state of which is passed explicitly. *)
Record lockedNonce : Type := mkLockedNonce {
  nsOpID : string;
  signer : string;
  unlocked : chan;
  nonce : Z;
  spent : option ManagedTX
}.

(** The part of [simpleTransactionHandler] the allocator uses.  [mux] is
    [true] while the mutex is held.  [lockedNonces] maps a signer to a
    pointer; a pointer is an index into [heap], where every [lockedNonce]
    ever allocated lives. *)
Record simpleTransactionHandler : Type := mkHandler {
  mux : bool;
  lockedNonces : gmap string nat;
  heap : list lockedNonce
}.

Definition close_unlocked (o : lockedNonce) : lockedNonce :=
  {| nsOpID := nsOpID o; signer := signer o; unlocked := ChanClosed;
     nonce := nonce o; spent := spent o |}.

Definition set_nonce (o : lockedNonce) (n : Z) : lockedNonce :=
  {| nsOpID := nsOpID o; signer := signer o; unlocked := unlocked o;
     nonce := n; spent := spent o |}.

(** [lockedNonce.complete]: take the mutex, delete the signer's entry, close
    the channel, release the mutex.  A nil receiver panics at [ln.spent];
    closing a closed channel panics after the delete, with the mutex held. *)
Definition complete (sth : simpleTransactionHandler) (ln : nat)
    : outcome simpleTransactionHandler :=
  match heap sth !! ln with
  | None => Panics sth
  | Some o =>
    if mux sth then Blocks
    else
      let deleted := delete (signer o) (lockedNonces sth) in
      match unlocked o with
      | ChanClosed =>
        Panics {| mux := true; lockedNonces := deleted; heap := heap sth |}
      | ChanOpen =>
        Returns {| mux := false; lockedNonces := deleted;
                   heap := <[ln := close_unlocked o]> (heap sth) |}
      end
  end.

(** [<-locked.unlocked]: whether the receive returns in [sth].  It does as
    soon as the channel is closed, whoever is receiving; a nil pointer would
    wait for ever. *)
Definition receive_unlocked (sth : simpleTransactionHandler) (locked : nat)
    : bool :=
  match heap sth !! locked with
  | Some o =>
    match unlocked o with
    | ChanClosed => true
    | ChanOpen => false
    end
  | None => false
  end.

(** Program points of one call of [assignAndLockNonce]. *)
Inductive pc : Type :=
| LoopHead                                (* top of the [for], before the lock *)
| AwaitUnlocked (locked : nat)            (* in [<-locked.unlocked] *)
| DoLookup (locked : nat)                 (* before [calcNextNonce] *)
| FailCompleting (locked : nat) (err : string)  (* before [locked.complete] *)
| Returned (r : result nat).              (* [return locked, nil] or [nil, err] *)

(** One step of a call of [assignAndLockNonce nsOpID signer] standing at
    program point [p].  The critical section of the loop head runs as one
    step, as the mutex makes it; [toolkit] and [now] are the collaborators
    and the clock as they are when the step runs. *)
Definition assignAndLockNonce_step (toolkit : Toolkit)
    (nonceStateTimeout now : Z) (nsOpID signer : string)
    (sth : simpleTransactionHandler) (p : pc)
    : outcome (simpleTransactionHandler * pc) :=
  match p with
  | LoopHead =>
    if mux sth then Blocks
    else
      match lockedNonces sth !! signer with
      | Some locked => Returns (sth, AwaitUnlocked locked)
      | None =>
        let locked := length (heap sth) in
        let o := {| nsOpID := nsOpID; signer := signer; unlocked := ChanOpen;
                    nonce := 0; spent := None |} in
        Returns ({| mux := false;
                    lockedNonces := <[signer := locked]> (lockedNonces sth);
                    heap := heap sth ++ [o] |},
                 DoLookup locked)
      end
  | AwaitUnlocked locked =>
    if receive_unlocked sth locked then Returns (sth, LoopHead) else Blocks
  | DoLookup locked =>
    match snd (calcNextNonce toolkit nonceStateTimeout now signer) with
    | Err e => Returns (sth, FailCompleting locked e)
    | Ok nextNonce =>
      match heap sth !! locked with
      | Some o =>
        Returns ({| mux := mux sth; lockedNonces := lockedNonces sth;
                    heap := <[locked := set_nonce o nextNonce]> (heap sth) |},
                 Returned (Ok locked))
      | None => Panics (sth, p)
      end
    end
  | FailCompleting locked e =>
    match complete sth locked with
    | Returns sth' => Returns (sth', Returned (Err e))
    | Panics sth' => Panics (sth', p)
    | Blocks => Blocks
    | OutOfFuel => OutOfFuel
    end
  | Returned _ => Blocks
  end.

(** A call run on its own, no other goroutine stepping in between, for at
    most [fuel] steps. *)
Fixpoint assignAndLockNonce_from (fuel : nat) (toolkit : Toolkit)
    (nonceStateTimeout now : Z) (nsOpID signer : string)
    (sth : simpleTransactionHandler) (p : pc)
    : outcome (simpleTransactionHandler * result nat) :=
  match p with
  | Returned r => Returns (sth, r)
  | _ =>
    match fuel with
    | O => OutOfFuel
    | S fuel' =>
      match assignAndLockNonce_step toolkit nonceStateTimeout now
              nsOpID signer sth p with
      | Returns (sth', p') =>
        assignAndLockNonce_from fuel' toolkit nonceStateTimeout now
          nsOpID signer sth' p'
      | Panics (sth', _) => Panics (sth', Err "panic")
      | Blocks => Blocks
      | OutOfFuel => OutOfFuel
      end
    end
  end.

Definition assignAndLockNonce (fuel : nat) (toolkit : Toolkit)
    (nonceStateTimeout now : Z) (nsOpID signer : string)
    (sth : simpleTransactionHandler)
    : outcome (simpleTransactionHandler * result nat) :=
  assignAndLockNonce_from fuel toolkit nonceStateTimeout now nsOpID signer
    sth LoopHead.

Definition heap_nonce (sth : simpleTransactionHandler) (locked : nat)
    : option Z :=
  nonce <$> heap sth !! locked.

(** The handler states other goroutines can produce: any step of any call
    of [assignAndLockNonce], any returning [complete]. *)
Inductive handler_step (sth sth' : simpleTransactionHandler) : Prop :=
| step_assign toolkit nonceStateTimeout now nsOpID signer p p' :
    assignAndLockNonce_step toolkit nonceStateTimeout now nsOpID signer sth p
      = Returns (sth', p') ->
    handler_step sth sth'
| step_complete ln :
    complete sth ln = Returns sth' ->
    handler_step sth sth'.

(** A goroutine serving a request for [g_signer]: where it stands in its call
    of [assignAndLockNonce], and whether it has called [complete] on the
    handle the call returned. *)
Record goroutine : Type := mkGoroutine {
  g_nsOpID : string;
  g_signer : string;
  g_pc : pc;
  g_completed : bool
}.

(** The handle a goroutine holding: from the moment it has put its entry in
    the map until it has completed it. *)
Definition holding (g : goroutine) : option nat :=
  if g_completed g then None
  else
    match g_pc g with
    | DoLookup l | FailCompleting l _ | Returned (Ok l) => Some l
    | _ => None
    end.

(** One step of one goroutine of the system: a step of its call, or, once
    the call has returned a handle, the [complete] that the caller owes. *)
Inductive system_step :
  simpleTransactionHandler * list goroutine ->
  simpleTransactionHandler * list goroutine -> Prop :=
| system_call sth gs i g toolkit nonceStateTimeout now sth' p' :
    gs !! i = Some g ->
    g_completed g = false ->
    assignAndLockNonce_step toolkit nonceStateTimeout now
      (g_nsOpID g) (g_signer g) sth (g_pc g) = Returns (sth', p') ->
    system_step (sth, gs)
      (sth', <[i := mkGoroutine (g_nsOpID g) (g_signer g) p' false]> gs)
| system_complete sth gs i g l sth' :
    gs !! i = Some g ->
    g_completed g = false ->
    g_pc g = Returned (Ok l) ->
    complete sth l = Returns sth' ->
    system_step (sth, gs)
      (sth', <[i := mkGoroutine (g_nsOpID g) (g_signer g) (g_pc g) true]> gs).

(** Every holder's handle is the signer's entry and is open, and no handle
    has two holders. *)
Definition lock_invariant (sys : simpleTransactionHandler * list goroutine)
    : Prop :=
  let '(sth, gs) := sys in
  mux sth = false
  /\ (forall i g l,
        gs !! i = Some g -> holding g = Some l ->
        lockedNonces sth !! g_signer g = Some l
        /\ exists o, heap sth !! l = Some o /\ signer o = g_signer g
                     /\ unlocked o = ChanOpen)
  /\ (forall i j g g' l,
        gs !! i = Some g -> gs !! j = Some g' ->
        holding g = Some l -> holding g' = Some l -> i = j).
(** The handle [ln] of signer [s] has been completed: its channel is
    closed, and the mutex is free. *)
Definition completed_handle (ln : nat) (s : string)
    (sth : simpleTransactionHandler) : Prop :=
  mux sth = false
  /\ exists o, heap sth !! ln = Some o /\ unlocked o = ChanClosed
               /\ signer o = s.

(** The persistence query fails, or it finds no fresh record and the
    connector query fails. *)
Definition query_fails (toolkit : Toolkit) (nonceStateTimeout now : Z)
    (signer : string) (e : string) : Prop :=
  ListTransactionsByNonce toolkit signer None 1 SortDirectionDescending = Err e
  \/ exists txns,
       ListTransactionsByNonce toolkit signer None 1 SortDirectionDescending
       = Ok txns
       /\ (forall l, head txns = Some l ->
                     ~ time_Since now (Created l) < nonceStateTimeout)
       /\ NextNonceForSigner toolkit signer = Err e.

(** Of the goroutines waiting in [<-locked.unlocked], each given by the
    pointer it waits on, those whose receive returns in [sth]. *)
Definition woken (sth : simpleTransactionHandler) (waiting : list nat)
    : list nat :=
  filter (fun locked => receive_unlocked sth locked = true) waiting.

(** The handle a goroutine is waiting on in [<-locked.unlocked]. *)
Definition waiting (g : goroutine) : option nat :=
  if g_completed g then None
  else
    match g_pc g with
    | AwaitUnlocked l => Some l
    | _ => None
    end.

(** A goroutine that has nothing left to do: its call has returned an
    error, or it has completed the handle the call returned. *)
Definition finished (g : goroutine) : bool :=
  g_completed g
  || match g_pc g with
     | Returned (Err _) => true
     | _ => false
     end.

(** The lock as its users see it: on top of [lock_invariant], every entry
    of the map belongs to a goroutine that holds it, and every goroutine
    that waits does so on a handle that is closed or held. *)
Definition lock_protocol (sys : simpleTransactionHandler * list goroutine)
    : Prop :=
  let '(sth, gs) := sys in
  lock_invariant (sth, gs)
  /\ (forall s l,
        lockedNonces sth !! s = Some l ->
        exists j h, gs !! j = Some h /\ holding h = Some l /\ g_signer h = s)
  /\ (forall i g l,
        gs !! i = Some g -> waiting g = Some l ->
        exists o, heap sth !! l = Some o
                  /\ (unlocked o = ChanClosed
                      \/ exists j h, gs !! j = Some h /\ holding h = Some l)).

End Nonces.

(** ** The transaction persistence (backend not in the sources) *)

Module Persistence.

(** Modelled from the spec: the persistence backend, a key-value store of
    managed transactions, of which the sources hold the interface only.  The
    store is the list of its records in the order they were written. *)
Abbreviation store := (list ManagedTX).

Fixpoint insert_desc (tx : ManagedTX) (l : list ManagedTX) : list ManagedTX :=
  match l with
  | [] => [tx]
  | h :: t => if Nonce h <? Nonce tx then tx :: l else h :: insert_desc tx t
  end.

Definition sort_desc (l : list ManagedTX) : list ManagedTX :=
  foldr insert_desc [] l.

(** Modelled from the spec: [ListTransactionsByNonce(signer, after, limit,
    dir)], the signer's records in nonce order, highest first when [dir] is
    descending, those past [after] only, at most [limit] of them. *)
Definition ListTransactionsByNonce (db : store) (signer : string)
    (after : option Z) (limit : Z) (dir : SortDirection) : list ManagedTX :=
  let mine := filter (fun tx => From tx = signer) db in
  let desc := sort_desc mine in
  let ordered := if dir =? SortDirectionDescending then desc else rev desc in
  let past :=
    match after with
    | None => ordered
    | Some n =>
      filter (fun tx => (if dir =? SortDirectionDescending
                         then Nonce tx <? n else n <? Nonce tx) = true) ordered
    end in
  take (Z.to_nat limit) past.


(** Modelled from the spec: [GetTransactionByID(id)]. *)
Definition GetTransactionByID (db : store) (txID : string) : option ManagedTX :=
  head (filter (fun tx => ID tx = txID) db).

(** Modelled from the spec: [WriteTransaction(tx, isNew)], which must reject
    when [isNew] and the id already exists; otherwise the record replaces the
    one of that id, or is added. *)
Definition WriteTransaction (db : store) (tx : ManagedTX) (isNew : bool)
    : store * option string :=
  match GetTransactionByID db (ID tx) with
  | Some _ =>
    if isNew then (db, Some "transaction already exists")
    else (map (fun old => if decide (ID old = ID tx) then tx else old) db, None)
  | None => (db ++ [tx], None)
  end.

End Persistence.

(** ** Accepting a request (transaction handler entry point, not in the
    sources) *)

Module Handler.

(** What the outside world answers while one request is served: the clock,
    the connector's [TransactionPrepare] and [NextNonceForSigner], and whether
    the persistence read fails. *)
Record request : Type := mkRequest {
  req_id : string;
  req_from : string;
  req_now : Z;
  req_prepare : result unit;
  req_list_error : option string;
  req_node_nonce : string -> result Z
}.

Record state : Type := mkState {
  handler : Nonces.simpleTransactionHandler;
  db : Persistence.store
}.

(** The toolkit as the request sees it: persistence reads answer from the
    store unless the read fails, the connector answers as the request says. *)
Definition toolkit_of (r : request) (db : Persistence.store) : Nonces.Toolkit :=
  Nonces.mkToolkit
    (fun signer after limit dir =>
       match req_list_error r with
       | Some e => Err e
       | None => Ok (Persistence.ListTransactionsByNonce db signer after limit dir)
       end)
    (req_node_nonce r).

(** Modelled from the spec: [HandleNewTransaction], section 2: it calls the
    connector's prepare, acquires a nonce via the nonce allocator, writes the
    new managed transaction (status Pending, no submission yet) to
    persistence with [isNew], and completes the nonce handle; preparation
    and nonce-allocation failures are returned to the caller. *)
Definition HandleNewTransaction (nonceStateTimeout : Z) (r : request)
    (st : state) : Nonces.outcome (state * result ManagedTX) :=
  match req_prepare r with
  | Err e => Nonces.Returns (st, Err e)
  | Ok _ =>
    match Nonces.assignAndLockNonce 3 (toolkit_of r (db st)) nonceStateTimeout
            (req_now r) (req_id r) (req_from r) (handler st) with
    | Nonces.Returns (sth, Err e) =>
      Nonces.Returns ({| handler := sth; db := db st |}, Err e)
    | Nonces.Returns (sth, Ok locked) =>
      match Nonces.heap_nonce sth locked with
      | None => Nonces.Panics ({| handler := sth; db := db st |}, Err "nil")
      | Some n =>
        let mtx := {| ID := req_id r; Created := req_now r;
                      From := req_from r; Nonce := n;
                      Status := TxStatusPending; TransactionHash := "";
                      FirstSubmit := None; LastSubmit := None;
                      Receipt := None;
                      History := []; HistorySummary := [] |} in
        let '(db', werr) := Persistence.WriteTransaction (db st) mtx true in
        match Nonces.complete sth locked with
        | Nonces.Returns sth' =>
          Nonces.Returns ({| handler := sth'; db := db' |},
                          match werr with Some e => Err e | None => Ok mtx end)
        | Nonces.Panics sth' =>
          Nonces.Panics ({| handler := sth'; db := db' |}, Err "panic")
        | Nonces.Blocks => Nonces.Blocks
        | Nonces.OutOfFuel => Nonces.OutOfFuel
        end
      end
    | Nonces.Panics (sth, _) =>
      Nonces.Panics ({| handler := sth; db := db st |}, Err "panic")
    | Nonces.Blocks => Nonces.Blocks
    | Nonces.OutOfFuel => Nonces.OutOfFuel
    end
  end.











End Handler.

(** ** The history tracker (pkg/txhistory, implementation not in the
    sources) *)

Module TxHistory.

Module HE := TxHistoryStateTransitionEntry.
Module AE := TxHistoryActionEntry.
Module SE := TxHistorySummaryEntry.

(** The sub-status and action names the tests use. *)
Definition TxSubStatusReceived : string := "Received".
Definition TxSubStatusStale : string := "Stale".
Definition TxSubStatusTracking : string := "Tracking".
Definition TxSubStatusConfirmed : string := "Confirmed".
Definition TxActionAssignNonce : string := "AssignNonce".
Definition TxActionRetrieveGasPrice : string := "RetrieveGasPrice".
Definition TxActionSubmitTransaction : string := "SubmitTransaction".
Definition TxActionReceiveReceipt : string := "ReceiveReceipt".

Definition with_history (mtx : ManagedTX)
    (h : list HE.t)
    (hs : list SE.t) : ManagedTX :=
  {| ID := ID mtx; Created := Created mtx; From := From mtx;
     Nonce := Nonce mtx; Status := Status mtx;
     TransactionHash := TransactionHash mtx;
     FirstSubmit := FirstSubmit mtx; LastSubmit := LastSubmit mtx;
     Receipt := Receipt mtx; History := h; HistorySummary := hs |}.

(** The summary row matched by [hit], counted once more and seen at [now];
    [None] when no row matches. *)
Fixpoint bump (hit : SE.t -> bool) (now : Z)
    (hs : list SE.t)
    : option (list SE.t) :=
  match hs with
  | [] => None
  | e :: rest =>
    if hit e then
      Some ({| SE.Status := SE.Status e;
               SE.Action := SE.Action e;
               SE.FirstOccurrence :=
                 SE.FirstOccurrence e;
               SE.LastOccurrence := now;
               SE.Count :=
                 SE.Count e + 1 |} :: rest)
    else cons e <$> bump hit now rest
  end.

Definition summarise (hit : SE.t -> bool)
    (fresh : SE.t) (now : Z)
    (hs : list SE.t) : list SE.t :=
  match bump hit now hs with
  | Some hs' => hs'
  | None => hs ++ [fresh]
  end.

(** A history entry that has no action yet. *)
Definition new_entry (now : Z) (s : string) : HE.t :=
  {| HE.Status := s; HE.Time := now; HE.Actions := [] |}.

Section WithConfig.

(** [transactions.maxHistoryCount], 50 by default (tmconfig.go). *)
Variable maxHistoryCount : Z.

(** Modelled from the spec: [CurrentSubStatus], the tail of the history. *)
Definition CurrentSubStatus (mtx : ManagedTX)
    : option HE.t :=
  last (History mtx).

(** FIFO eviction: one entry past the cap drops the oldest. *)
Definition evict (h : list HE.t)
    : list HE.t :=
  if maxHistoryCount <? Z.of_nat (length h) then tail h else h.

(** Modelled from the spec: [SetSubStatus], section 4.2.  With
    [maxHistoryCount = 0] both lists stay as they are; the same status as
    the current tail is a no-op; otherwise an entry with no actions is
    appended, the oldest entry is evicted past [maxHistoryCount], and the
    summary row of the status is counted, or added when the status is new. *)
Definition SetSubStatus (now : Z) (mtx : ManagedTX) (subStatus : string)
    : ManagedTX :=
  if maxHistoryCount =? 0 then mtx
  else if bool_decide (HE.Status <$> CurrentSubStatus mtx = Some subStatus)
  then mtx
  else
    with_history mtx
      (evict (History mtx ++ [new_entry now subStatus]))
      (summarise
         (fun e => bool_decide (SE.Status e = subStatus))
         {| SE.Status := subStatus;
            SE.Action := "";
            SE.FirstOccurrence := now;
            SE.LastOccurrence := now;
            SE.Count := 1 |}
         now (HistorySummary mtx)).

(** The action row of [action] counted once more, its last info and error
    refreshed when given; [None] when the entry has no such row. *)
Fixpoint repeat_action (action : string) (now : Z)
    (info err : option string) (l : list AE.t)
    : option (list AE.t) :=
  match l with
  | [] => None
  | a :: rest =>
    if bool_decide (AE.Action a = action) then
      Some ({| AE.Action := AE.Action a;
               AE.Count := AE.Count a + 1;
               AE.FirstOccurrence :=
                 AE.FirstOccurrence a;
               AE.LastOccurrence := now;
               AE.LastInfo :=
                 match info with
                 | Some i => Some i
                 | None => AE.LastInfo a
                 end;
               AE.LastError :=
                 match err with
                 | Some e => Some e
                 | None => AE.LastError a
                 end;
               AE.LastErrorTime :=
                 match err with
                 | Some _ => Some now
                 | None => AE.LastErrorTime a
                 end |} :: rest)
    else cons a <$> repeat_action action now info err rest
  end.

Definition record_action (action : string) (now : Z)
    (info err : option string) (entry : HE.t)
    : HE.t :=
  {| HE.Status := HE.Status entry; HE.Time := HE.Time entry;
     HE.Actions :=
       match repeat_action action now info err (HE.Actions entry) with
       | Some l => l
       | None =>
         HE.Actions entry ++
         [{| AE.Action := action;
             AE.Count := 1;
             AE.FirstOccurrence := now;
             AE.LastOccurrence := now;
             AE.LastInfo := info;
             AE.LastError := err;
             AE.LastErrorTime :=
               match err with Some _ => Some now | None => None end |}]
       end |}.

(** Modelled from the spec: [AddSubStatusAction], section 4.2.  An empty
    history first receives a [Received] status; the action is recorded in
    the tail entry, a repeat counting up the row it has; the summary row of
    the action is counted, or added when the action is new. *)
Definition AddSubStatusAction (now : Z) (mtx : ManagedTX) (action : string)
    (info err : option string) : ManagedTX :=
  if maxHistoryCount =? 0 then mtx
  else
    let mtx1 :=
      match History mtx with
      | [] => SetSubStatus now mtx TxSubStatusReceived
      | _ => mtx
      end in
    let h := History mtx1 in
    let h' :=
      match last h with
      | Some cur =>
        take (length h - 1)%nat h ++ [record_action action now info err cur]
      | None => h
      end in
    with_history mtx1 h'
      (summarise
         (fun e => bool_decide (SE.Action e = action))
         {| SE.Status := "";
            SE.Action := action;
            SE.FirstOccurrence := now;
            SE.LastOccurrence := now;
            SE.Count := 1 |}
         now (HistorySummary mtx1)).

(** What the tracker holds after a run of statuses it had never seen:
    the history is the newest [maxHistoryCount] of them, the summary has
    them all. *)
Definition holds (seen : list string) (mtx : ManagedTX) : Prop :=
  HE.Status <$> History mtx
  = drop (length seen - Z.to_nat maxHistoryCount) seen
  /\ SE.Status <$> HistorySummary mtx = seen.

(** [SetSubStatus] called once per status of [ss], the [i]-th call at time
    [now + i]. *)
Fixpoint SetSubStatuses (now : Z) (mtx : ManagedTX) (ss : list string)
    : ManagedTX :=
  match ss with
  | [] => mtx
  | s :: rest => SetSubStatuses (now + 1) (SetSubStatus now mtx s) rest
  end.

End WithConfig.

End TxHistory.

(** ** The policy loop (simple transaction handler, implementation not in
    the sources; its tests are) *)

Module PolicyLoop.

(** Modelled from the spec: [confirmations.Notification] for a transaction
    hash, section 6. *)
Inductive Notification : Type :=
| NewTransaction (hash : string)
| RemovedTransaction (hash : string).

(** Modelled from the spec: [pendingState], a record of the in-flight set,
    section 4.3. *)
Record pendingState : Type := mkPending {
  mtx : ManagedTX;
  confirmed : bool;
  remove : bool;
  trackingTransactionHash : string
}.

Definition set_remove (p : pendingState) (b : bool) : pendingState :=
  {| mtx := mtx p; confirmed := confirmed p; remove := b;
     trackingTransactionHash := trackingTransactionHash p |}.

Definition set_tracking (p : pendingState) (h : string) : pendingState :=
  {| mtx := mtx p; confirmed := confirmed p; remove := remove p;
     trackingTransactionHash := h |}.

Definition set_mtx (p : pendingState) (m : ManagedTX) : pendingState :=
  {| mtx := m; confirmed := confirmed p; remove := remove p;
     trackingTransactionHash := trackingTransactionHash p |}.

(** What the collaborators answer during one [execPolicy]: the clock, the
    gas oracle, the connector's [TransactionSend] (a hash, or an error with
    whether its reason allows a retry), and the confirmations manager's
    [Notify] (an error or none). *)
Record world : Type := mkWorld {
  now : Z;
  gasPrice : result string;
  TransactionSend : string + (bool * string);
  Notify : Notification -> option string
}.

Section WithConfig.

Variable maxHistoryCount : Z.
Variable resubmitInterval : Z.

Definition submitted (m : ManagedTX) (hash : string) (first : option Z)
    (t : Z) : ManagedTX :=
  {| ID := ID m; Created := Created m; From := From m; Nonce := Nonce m;
     Status := Status m; TransactionHash := hash;
     FirstSubmit := match first with Some f => Some f | None => Some t end;
     LastSubmit := Some t; Receipt := Receipt m;
     History := History m; HistorySummary := HistorySummary m |}.

Definition set_status (m : ManagedTX) (s : TxStatus) : ManagedTX :=
  {| ID := ID m; Created := Created m; From := From m; Nonce := Nonce m;
     Status := s; TransactionHash := TransactionHash m;
     FirstSubmit := FirstSubmit m; LastSubmit := LastSubmit m;
     Receipt := Receipt m;
     History := History m; HistorySummary := HistorySummary m |}.

(** Modelled from the spec: registering the hash of a submission with the
    confirmations manager, sections 4.4 and 5: when the hash differs from the
    one last registered, removal of the old hash precedes announcement of the
    new; a [Notify] error is logged, not fatal, and the registration is
    tried again on the next cycle, the registered hash being left as it was
    ([TestNotifyConfirmationMgrFail] has both notifications made again when
    both fail).  Returns the record and the [Notify] calls made. *)
Definition trackSubmittedTransaction (w : world) (p : pendingState)
    : pendingState * list Notification :=
  let old := trackingTransactionHash p in
  let new := TransactionHash (mtx p) in
  if decide (old = new) then (p, [])
  else
    let removal :=
      if decide (old = "") then [] else [RemovedTransaction old] in
    let calls := removal ++ [NewTransaction new] in
    if forallb (fun n => bool_decide (Notify w n = None)) calls
    then (set_tracking p new, calls)
    else (p, calls).

(** Modelled from the spec: obtaining the gas price and sending, for the
    first time or again, section 4.4: on success the hash and the
    submission times are stored, the action [SubmitTransaction] is recorded,
    the hash is registered and the sub-status is [Tracking]; a retryable
    failure records the action with the error and leaves the record as it
    is; another failure is terminal. *)
Definition submit (w : world) (p : pendingState)
    : pendingState * list Notification :=
  match gasPrice w with
  | Err e =>
    (set_mtx p (TxHistory.AddSubStatusAction maxHistoryCount (now w) (mtx p)
                  TxHistory.TxActionRetrieveGasPrice None (Some e)), [])
  | Ok _ =>
    match TransactionSend w with
    | inl hash =>
      let m1 := submitted (mtx p) hash (FirstSubmit (mtx p)) (now w) in
      let m2 := TxHistory.AddSubStatusAction maxHistoryCount (now w) m1
                  TxHistory.TxActionSubmitTransaction None None in
      let '(p', ns) := trackSubmittedTransaction w (set_mtx p m2) in
      (set_mtx p' (TxHistory.SetSubStatus maxHistoryCount (now w) (mtx p')
                     TxHistory.TxSubStatusTracking), ns)
    | inr (retryable, e) =>
      let m1 := TxHistory.AddSubStatusAction maxHistoryCount (now w) (mtx p)
                  TxHistory.TxActionSubmitTransaction None (Some e) in
      (set_mtx p (if retryable then m1 else set_status m1 TxStatusFailed), [])
    end
  end.

(** Modelled from the spec: [execPolicy], the state-machine step of section
    4.4, the states being implicit in the fields of the record. *)
Definition execPolicy (w : world) (p : pendingState)
    : pendingState * list Notification :=
  if confirmed p then
    (set_mtx p (set_status (mtx p)
                  match Receipt (mtx p) with
                  | Some r => if Success r then TxStatusSucceeded
                              else TxStatusFailed
                  | None => TxStatusFailed
                  end), [])
  else
    match FirstSubmit (mtx p), Receipt (mtx p) with
    | None, _ => submit w p
    | Some _, None =>
      if decide (trackingTransactionHash p = TransactionHash (mtx p)) then
        match LastSubmit (mtx p) with
        | Some t =>
          if resubmitInterval <? now w - t then submit w p else (p, [])
        | None => (p, [])
        end
      else trackSubmittedTransaction w p
    | Some _, Some _ =>
      (set_mtx p (TxHistory.SetSubStatus maxHistoryCount (now w) (mtx p)
                    TxHistory.TxSubStatusTracking), [])
    end.

End WithConfig.

(** *** The API request channel *)

(** Modelled from the spec: the requests and responses of the API request
    channel, section 4.5; the tests name the fields. *)
Inductive policyEngineAPIRequestType : Type :=
| policyEngineAPIRequestTypeDelete
| policyEngineAPIRequestTypeOther (n : Z).

Record policyEngineAPIRequest : Type := mkAPIRequest {
  requestType : policyEngineAPIRequestType;
  txID : string
}.

Record policyEngineAPIResponse : Type := mkAPIResponse {
  tx : option ManagedTX;
  err : option string;
  status : Z
}.

Definition StatusOK : Z := 200.

(** The error codes of section 6. *)
Definition MsgTransactionNotFound : string := "FF21067".
Definition MsgPolicyEngineRequestInvalid : string := "FF21073".

(** The persistence as the request handler sees it (persistence.go): what
    each call answers.  In the repository's tests it is a mock that answers
    as told and records the calls. *)
Record TransactionPersistence : Type := mkPersistence {
  GetTransactionByID : string -> result (option ManagedTX);
  DeleteTransaction : string -> option string
}.

Inductive pcall : Type :=
| CallGetTransactionByID (txID : string)
| CallDeleteTransaction (txID : string).

(** The first record of the in-flight set with the identifier, and its
    position. *)
Fixpoint find_inflight (inflight : list pendingState) (id : string)
    : option (nat * pendingState) :=
  match inflight with
  | [] => None
  | p :: rest =>
    if decide (ID (mtx p) = id) then Some (O, p)
    else (fun ip => (S (fst ip), snd ip)) <$> find_inflight rest id
  end.

Definition respond_error (e : string) : policyEngineAPIResponse :=
  {| tx := None; err := Some e; status := 0 |}.

Definition respond_ok (m : ManagedTX) : policyEngineAPIResponse :=
  {| tx := Some m; err := None; status := StatusOK |}.

(** Modelled from the spec: one request of [processPolicyAPIRequests],
    section 4.5: the record in flight is used when there is one, else the
    transaction is looked up in persistence; Delete follows, or FF21073 for
    a type that is not known.  [sync] says whether a transaction that is in
    flight is deleted from persistence within the request, the one point on
    which the two variants below differ. *)
Definition processRequest (sync : bool) (tp : TransactionPersistence)
    (inflight : list pendingState) (req : policyEngineAPIRequest)
    : list pendingState * list pcall * policyEngineAPIResponse :=
  match find_inflight inflight (txID req) with
  | Some (i, p) =>
    match requestType req with
    | policyEngineAPIRequestTypeDelete =>
      if sync then
        match DeleteTransaction tp (txID req) with
        | Some e =>
          (inflight, [CallDeleteTransaction (txID req)], respond_error e)
        | None =>
          (<[i := set_remove p true]> inflight,
           [CallDeleteTransaction (txID req)], respond_ok (mtx p))
        end
      else (<[i := set_remove p true]> inflight, [], respond_ok (mtx p))
    | policyEngineAPIRequestTypeOther _ =>
      (inflight, [], respond_error MsgPolicyEngineRequestInvalid)
    end
  | None =>
    let get := CallGetTransactionByID (txID req) in
    match GetTransactionByID tp (txID req) with
    | Err e => (inflight, [get], respond_error e)
    | Ok None => (inflight, [get], respond_error MsgTransactionNotFound)
    | Ok (Some m) =>
      match requestType req with
      | policyEngineAPIRequestTypeDelete =>
        match DeleteTransaction tp (txID req) with
        | Some e =>
          (inflight, [get; CallDeleteTransaction (txID req)], respond_error e)
        | None =>
          (inflight, [get; CallDeleteTransaction (txID req)], respond_ok m)
        end
      | policyEngineAPIRequestTypeOther _ =>
        (inflight, [get], respond_error MsgPolicyEngineRequestInvalid)
      end
    end
  end.

Fixpoint processRequests (sync : bool) (tp : TransactionPersistence)
    (inflight : list pendingState) (reqs : list policyEngineAPIRequest)
    : list pendingState * list pcall * list policyEngineAPIResponse :=
  match reqs with
  | [] => (inflight, [], [])
  | req :: rest =>
    let '(inflight1, calls1, res) := processRequest sync tp inflight req in
    let '(inflight2, calls2, ress) := processRequests sync tp inflight1 rest in
    (inflight2, calls1 ++ calls2, res :: ress)
  end.

(** Modelled from the spec: [processPolicyAPIRequests] in the words of
    section 4.5: a Delete of a transaction that is in flight sets [remove] and
    answers OK, the deletion from persistence being left to the next cycle;
    otherwise the transaction is looked up in persistence and deleted
    directly; a transaction found nowhere yields FF21067. *)
Definition processPolicyAPIRequests_deferred := processRequests false.

(** Modelled from the spec: [processPolicyAPIRequests], section 4.5, with
    the one difference that the repository's test
    [TestExecPolicyDeleteInflightSync] requires: a Delete of a transaction
    that is in flight calls [DeleteTransaction] within the request, before
    [remove] is set and OK is answered. *)
Definition processPolicyAPIRequests := processRequests true.

(** *** The repository's tests of the Delete request *)

(** A test's persistence mock: the answer registered for a call, and
    whether any was registered ([mock.On]).  A call that was not registered
    fails the test; [AssertExpectations] fails when a registered call was
    never made. *)
Record mock : Type := mkMock {
  onGetTransactionByID : option (string * result (option ManagedTX));
  onDeleteTransaction : option (string * option string)
}.

Definition mock_persistence (m : mock) : TransactionPersistence :=
  {| GetTransactionByID := fun id =>
       match onGetTransactionByID m with
       | Some (_, r) => r
       | None => Err "mock: unexpected call"
       end;
     DeleteTransaction := fun id =>
       match onDeleteTransaction m with
       | Some (_, r) => r
       | None => Some "mock: unexpected call"
       end |}.

Definition registered (m : mock) (c : pcall) : bool :=
  match c with
  | CallGetTransactionByID id =>
    match onGetTransactionByID m with
    | Some (id', _) => bool_decide (id = id')
    | None => false
    end
  | CallDeleteTransaction id =>
    match onDeleteTransaction m with
    | Some (id', _) => bool_decide (id = id')
    | None => false
    end
  end.

Definition pcall_eqb (a b : pcall) : bool :=
  match a, b with
  | CallGetTransactionByID x, CallGetTransactionByID y => bool_decide (x = y)
  | CallDeleteTransaction x, CallDeleteTransaction y => bool_decide (x = y)
  | _, _ => false
  end.

Definition AssertExpectations (m : mock) (calls : list pcall) : bool :=
  forallb (registered m) calls
  && match onGetTransactionByID m with
     | Some (id, _) => existsb (pcall_eqb (CallGetTransactionByID id)) calls
     | None => true
     end
  && match onDeleteTransaction m with
     | Some (id, _) => existsb (pcall_eqb (CallDeleteTransaction id)) calls
     | None => true
     end.

(** The transaction [sendSampleTX] leaves behind in the tests. *)
Definition sampleTX : ManagedTX :=
  {| ID := "ns1/sample"; Created := 0; From := "0xaaaaa"; Nonce := 12345;
     Status := TxStatusPending; TransactionHash := "";
     FirstSubmit := None; LastSubmit := None; Receipt := None;
     History := []; HistorySummary := [] |}.

Definition handler_impl : Type :=
  TransactionPersistence -> list pendingState -> list policyEngineAPIRequest ->
  list pendingState * list pcall * list policyEngineAPIResponse.

(** [TestExecPolicyDeleteInflightSync], from the point where the sample
    transaction has been sent: the transaction is put in flight, the mock is
    told to answer [nil] to [DeleteTransaction(tx.ID)], a Delete request is
    queued and [processPolicyAPIRequests] is run; the response has no error
    and status OK, the record's [remove] is set, and the mock's expectations
    are met. *)
Definition TestExecPolicyDeleteInflightSync (impl : handler_impl) : bool :=
  let inflight := [mkPending sampleTX false false ""] in
  let mp := {| onGetTransactionByID := None;
               onDeleteTransaction := Some (ID sampleTX, None) |} in
  let req := mkAPIRequest policyEngineAPIRequestTypeDelete (ID sampleTX) in
  let '(inflight', calls, ress) := impl (mock_persistence mp) inflight [req] in
  match ress, inflight' with
  | [res], [p] =>
    bool_decide (err res = None)
    && (status res =? StatusOK)
    && remove p
    && AssertExpectations mp calls
  | _, _ => false
  end.

(** [TestExecPolicyDeleteNotFound]: the sample transaction is in flight,
    the mock answers [nil, nil] to [GetTransactionByID("bad-id")], and a
    Delete of "bad-id" is answered with FF21067. *)
Definition TestExecPolicyDeleteNotFound (impl : handler_impl) : bool :=
  let inflight := [mkPending sampleTX false false ""] in
  let mp := {| onGetTransactionByID := Some ("bad-id", Ok None);
               onDeleteTransaction := None |} in
  let req := mkAPIRequest policyEngineAPIRequestTypeDelete "bad-id" in
  let '(_, calls, ress) := impl (mock_persistence mp) inflight [req] in
  match ress with
  | [res] =>
    bool_decide (err res = Some MsgTransactionNotFound)
    && AssertExpectations mp calls
  | _ => false
  end.

(** [TestExecPolicyGetTxFail]: nothing is in flight and the mock answers
    [GetTransactionByID] with an error, which the response carries. *)
Definition TestExecPolicyGetTxFail (impl : handler_impl) : bool :=
  let mp := {| onGetTransactionByID := Some (ID sampleTX, Err "pop");
               onDeleteTransaction := None |} in
  let req := mkAPIRequest policyEngineAPIRequestTypeDelete (ID sampleTX) in
  let '(_, calls, ress) := impl (mock_persistence mp) [] [req] in
  match ress with
  | [res] => bool_decide (err res = Some "pop") && AssertExpectations mp calls
  | _ => false
  end.

(** [TestExecPolicyDeleteFail]: nothing is in flight, the mock finds the
    transaction and answers [DeleteTransaction] with an error, which the
    response carries. *)
Definition TestExecPolicyDeleteFail (impl : handler_impl) : bool :=
  let mp := {| onGetTransactionByID := Some (ID sampleTX, Ok (Some sampleTX));
               onDeleteTransaction := Some (ID sampleTX, Some "pop") |} in
  let req := mkAPIRequest policyEngineAPIRequestTypeDelete (ID sampleTX) in
  let '(_, calls, ress) := impl (mock_persistence mp) [] [req] in
  match ress with
  | [res] => bool_decide (err res = Some "pop") && AssertExpectations mp calls
  | _ => false
  end.

(** [TestBadTransactionAPIRequest]: a request of type 999 for the
    transaction in flight is answered with FF21073. *)
Definition TestBadTransactionAPIRequest (impl : handler_impl) : bool :=
  let inflight := [mkPending sampleTX false false ""] in
  let mp := {| onGetTransactionByID := None; onDeleteTransaction := None |} in
  let req := mkAPIRequest (policyEngineAPIRequestTypeOther 999) (ID sampleTX) in
  let '(_, calls, ress) := impl (mock_persistence mp) inflight [req] in
  match ress with
  | [res] =>
    bool_decide (err res = Some MsgPolicyEngineRequestInvalid)
    && AssertExpectations mp calls
  | _ => false
  end.

End PolicyLoop.

(** ** Configuration (internal/tmconfig/tmconfig.go) *)

Module Config.

(** [config.AddRootKey] registers a key and returns it as a [RootKey], a
    string. *)
Definition ffc (k : string) : string := k.

Definition ConfirmationsRequired := ffc "confirmations.required".
Definition ConfirmationsBlockQueueLength := ffc "confirmations.blockQueueLength".
Definition ConfirmationsStaleReceiptTimeout :=
  ffc "confirmations.staleReceiptTimeout".
Definition ConfirmationsNotificationQueueLength :=
  ffc "confirmations.notificationQueueLength".
Definition TransactionsMaxHistoryCount := ffc "transactions.maxHistoryCount".
Definition EventStreamsDefaultsBatchSize := ffc "eventstreams.defaults.batchSize".
Definition EventStreamsDefaultsBatchTimeout :=
  ffc "eventstreams.defaults.batchTimeout".
Definition EventStreamsDefaultsErrorHandling :=
  ffc "eventstreams.defaults.errorHandling".
Definition EventStreamsDefaultsRetryTimeout :=
  ffc "eventstreams.defaults.retryTimeout".
Definition EventStreamsDefaultsBlockedRetryDelay :=
  ffc "eventstreams.defaults.blockedRetryDelay".
Definition EventStreamsDefaultsWebhookRequestTimeout :=
  ffc "eventstreams.defaults.webhookRequestTimeout".
Definition EventStreamsDefaultsWebsocketDistributionMode :=
  ffc "eventstreams.defaults.websocketDistributionMode".
Definition EventStreamsCheckpointInterval := ffc "eventstreams.checkpointInterval".
Definition EventStreamsRetryInitDelay := ffc "eventstreams.retry.initialDelay".
Definition EventStreamsRetryMaxDelay := ffc "eventstreams.retry.maxDelay".
Definition EventStreamsRetryFactor := ffc "eventstreams.retry.factor".
Definition WebhooksAllowPrivateIPs := ffc "webhooks.allowPrivateIPs".
Definition PersistenceType := ffc "persistence.type".
Definition PersistenceLevelDBPath := ffc "persistence.leveldb.path".
Definition PersistenceLevelDBMaxHandles := ffc "persistence.leveldb.maxHandles".
Definition PersistenceLevelDBSyncWrites := ffc "persistence.leveldb.syncWrites".
Definition APIDefaultRequestTimeout := ffc "api.defaultRequestTimeout".
Definition APIMaxRequestTimeout := ffc "api.maxRequestTimeout".
Definition APIPassthroughHeaders := ffc "api.passthroughHeaders".
Definition DebugPort := ffc "debug.port".
Definition MetricsEnabled := ffc "metrics.enabled".
Definition MetricsPath := ffc "metrics.path".
Definition TransactionHandlerName := ffc "transactions.handler.name".
Definition DeprecatedTransactionsMaxInFlight := ffc "transactions.maxInFlight".
Definition DeprecatedTransactionsNonceStateTimeout :=
  ffc "transactions.nonceStateTimeout".
Definition DeprecatedPolicyLoopInterval := ffc "policyloop.interval".
Definition DeprecatedPolicyLoopRetryInitDelay :=
  ffc "policyloop.retry.initialDelay".
Definition DeprecatedPolicyLoopRetryMaxDelay := ffc "policyloop.retry.maxDelay".
Definition DeprecatedPolicyLoopRetryFactor := ffc "policyloop.retry.factor".
Definition DeprecatedPolicyEngineName := ffc "policyengine.name".

(** The keys registered by the [var] block, in its order. *)
Definition rootKeys : list string :=
  [ConfirmationsRequired; ConfirmationsBlockQueueLength;
   ConfirmationsStaleReceiptTimeout; ConfirmationsNotificationQueueLength;
   TransactionsMaxHistoryCount; EventStreamsDefaultsBatchSize;
   EventStreamsDefaultsBatchTimeout; EventStreamsDefaultsErrorHandling;
   EventStreamsDefaultsRetryTimeout; EventStreamsDefaultsBlockedRetryDelay;
   EventStreamsDefaultsWebhookRequestTimeout;
   EventStreamsDefaultsWebsocketDistributionMode;
   EventStreamsCheckpointInterval; EventStreamsRetryInitDelay;
   EventStreamsRetryMaxDelay; EventStreamsRetryFactor;
   WebhooksAllowPrivateIPs; PersistenceType; PersistenceLevelDBPath;
   PersistenceLevelDBMaxHandles; PersistenceLevelDBSyncWrites;
   APIDefaultRequestTimeout; APIMaxRequestTimeout; APIPassthroughHeaders;
   DebugPort; MetricsEnabled; MetricsPath; TransactionHandlerName;
   DeprecatedTransactionsMaxInFlight; DeprecatedTransactionsNonceStateTimeout;
   DeprecatedPolicyLoopInterval; DeprecatedPolicyLoopRetryInitDelay;
   DeprecatedPolicyLoopRetryMaxDelay; DeprecatedPolicyLoopRetryFactor;
   DeprecatedPolicyEngineName].

(** The values [setDefaults] passes: [int], [string], [bool], [[]string] and
    the [float64] [2.0], written as a mantissa and a binary exponent. *)
Inductive value : Type :=
| VInt (i : Z)
| VString (s : string)
| VBool (b : bool)
| VFloat64 (mantissa exponent : Z)
| VStrings (l : list string).

Inductive call : Type :=
| SetDefault (key : string) (v : value).

(** [setDefaults], as the calls of [viper.SetDefault] it makes, in order. *)
Definition setDefaults : list call :=
  [SetDefault TransactionsMaxHistoryCount (VInt 50);
   SetDefault ConfirmationsRequired (VInt 20);
   SetDefault ConfirmationsBlockQueueLength (VInt 50);
   SetDefault ConfirmationsNotificationQueueLength (VInt 50);
   SetDefault ConfirmationsStaleReceiptTimeout (VString "1m");
   SetDefault EventStreamsDefaultsBatchSize (VInt 50);
   SetDefault EventStreamsDefaultsBatchTimeout (VString "5s");
   SetDefault EventStreamsDefaultsErrorHandling (VString "block");
   SetDefault EventStreamsDefaultsRetryTimeout (VString "30s");
   SetDefault EventStreamsDefaultsBlockedRetryDelay (VString "30s");
   SetDefault EventStreamsDefaultsWebhookRequestTimeout (VString "30s");
   SetDefault EventStreamsDefaultsWebsocketDistributionMode
     (VString "load_balance");
   SetDefault EventStreamsCheckpointInterval (VString "1m");
   SetDefault WebhooksAllowPrivateIPs (VBool true);
   SetDefault PersistenceType (VString "leveldb");
   SetDefault PersistenceLevelDBMaxHandles (VInt 100);
   SetDefault PersistenceLevelDBSyncWrites (VBool false);
   SetDefault APIDefaultRequestTimeout (VString "30s");
   SetDefault APIMaxRequestTimeout (VString "10m");
   SetDefault EventStreamsRetryInitDelay (VString "250ms");
   SetDefault EventStreamsRetryMaxDelay (VString "30s");
   SetDefault EventStreamsRetryFactor (VFloat64 1 1);
   SetDefault DebugPort (VInt (-1));
   SetDefault MetricsEnabled (VBool false);
   SetDefault MetricsPath (VString "/metrics");
   SetDefault APIPassthroughHeaders (VStrings []);
   SetDefault DeprecatedPolicyEngineName (VString "simple");
   SetDefault DeprecatedTransactionsMaxInFlight (VInt 100);
   SetDefault DeprecatedTransactionsNonceStateTimeout (VString "1h");
   SetDefault DeprecatedPolicyLoopInterval (VString "10s");
   SetDefault DeprecatedPolicyLoopRetryInitDelay (VString "250ms");
   SetDefault DeprecatedPolicyLoopRetryMaxDelay (VString "30s");
   SetDefault DeprecatedPolicyLoopRetryFactor (VFloat64 1 1)].

(** Keys as viper compares them: without regard to the case of letters. *)
Definition ToLower_ascii (a : Ascii.ascii) : Ascii.ascii :=
  let n := Ascii.nat_of_ascii a in
  if ((65 <=? n) && (n <=? 90))%nat then Ascii.ascii_of_nat (n + 32) else a.

Fixpoint ToLower (s : string) : string :=
  match s with
  | EmptyString => EmptyString
  | String a s' => String (ToLower_ascii a) (ToLower s')
  end.

Definition same_key (a b : string) : bool :=
  String.eqb (ToLower a) (ToLower b).

(** The values the calls of [setDefaults] give to a key. *)
Definition defaults_of (k : string) : list value :=
  omap (fun c => match c with
                 | SetDefault k' v => if same_key k k' then Some v else None
                 end) setDefaults.

Definition call_key (c : call) : string :=
  match c with SetDefault k _ => k end.

End Config.

(** ** Concrete inputs *)

Module Scenarios.

Definition hour : Z := 3600000000000.

Definition tx (id : string) (nonce created : Z) : ManagedTX :=
  {| ID := id; Created := created; From := "0xaaaaa"; Nonce := nonce;
     Status := TxStatusPending; TransactionHash := "";
     FirstSubmit := None; LastSubmit := None; Receipt := None;
     History := []; HistorySummary := [] |}.

(** Scenario 5 of the specification: the last record has nonce 99 and has
    just been created. *)
Definition fresh_toolkit : Nonces.Toolkit :=
  Nonces.mkToolkit (fun _ _ _ _ => Ok [tx "ns1/tx99" 99 0]) (fun _ => Ok 7).

(** Scenario 5 of the specification, once the first of the two requests
    has been persisted with nonce 100. *)
Definition after_first : Nonces.Toolkit :=
  Nonces.mkToolkit (fun _ _ _ _ => Ok [tx "ns1/a" 100 5]) (fun _ => Ok 7).

(** Two requests for the same signer, both about to ask for a nonce. *)
Definition two_callers : list Nonces.goroutine :=
  [Nonces.mkGoroutine "ns1/a" "0xaaaaa" Nonces.LoopHead false;
   Nonces.mkGoroutine "ns1/b" "0xaaaaa" Nonces.LoopHead false].



(** The persistence read fails. *)
Definition failing_toolkit : Nonces.Toolkit :=
  Nonces.mkToolkit (fun _ _ _ _ => Err "pop") (fun _ => Ok 7).

(** No nonce is locked. *)
Definition idle : Nonces.simpleTransactionHandler :=
  Nonces.mkHandler false ∅ [].

(** The signer's nonce is held through the handle at address 0. *)
Definition held : Nonces.simpleTransactionHandler :=
  Nonces.mkHandler false {[ "0xaaaaa" := 0%nat ]}
    [Nonces.mkLockedNonce "ns1/op1" "0xaaaaa" Nonces.ChanOpen 100 None].

(** The first holder has completed and a later caller holds the signer's
    nonce through the handle at address 1. *)
Definition held_again : Nonces.simpleTransactionHandler :=
  Nonces.mkHandler false {[ "0xaaaaa" := 1%nat ]}
    [Nonces.mkLockedNonce "ns1/op1" "0xaaaaa" Nonces.ChanClosed 100 None;
     Nonces.mkLockedNonce "ns1/op2" "0xaaaaa" Nonces.ChanOpen 0 None].

(** Scenario 6 of the specification: the statuses ["0"], ..., ["99"], as
    [TestManagedTXSubStatusMaxEntries] builds them with [fmt.Sprint]. *)
Definition hundred_statuses : list string :=
  (fun i : nat => pretty i) <$> seq 0 100.

(** A transaction whose history is the one status [Received]. *)
Definition received : ManagedTX :=
  TxHistory.SetSubStatus 50 1 (tx "ns1/received" 0 0)
    TxHistory.TxSubStatusReceived.

(** Scenario 3 of the specification: the first send has been registered
    under hash A and the first submission has been cleared; the connector
    answers the second send with hash B and [Notify] succeeds. *)
Definition resubmitted : PolicyLoop.pendingState :=
  PolicyLoop.mkPending
    {| ID := "ns1/resubmit"; Created := 0; From := "0xaaaaa"; Nonce := 12345;
       Status := TxStatusPending; TransactionHash := "0xhashA";
       FirstSubmit := None; LastSubmit := Some 10; Receipt := None;
       History := []; HistorySummary := [] |}
    false false "0xhashA".

Definition second_send : PolicyLoop.world :=
  PolicyLoop.mkWorld 100 (Ok "12345") (inl "0xhashB") (fun _ => None).

(** The persistence mock and the in-flight set of
    [TestExecPolicyDeleteInflightSync]. *)
Definition delete_mock : PolicyLoop.TransactionPersistence :=
  PolicyLoop.mock_persistence
    (PolicyLoop.mkMock None (Some (ID PolicyLoop.sampleTX, None))).

Definition sample_inflight : list PolicyLoop.pendingState :=
  [PolicyLoop.mkPending PolicyLoop.sampleTX false false ""].

Definition delete_sample : PolicyLoop.policyEngineAPIRequest :=
  PolicyLoop.mkAPIRequest PolicyLoop.policyEngineAPIRequestTypeDelete
    (ID PolicyLoop.sampleTX).

Definition request (id : string) (now : Z) (node : Z) : Handler.request :=
  Handler.mkRequest id "0xaaaaa" now (Ok tt) None (fun _ => Ok node).


(** The last record has nonce 99 and the node is ahead of it. *)
Definition ahead_toolkit : Nonces.Toolkit :=
  Nonces.mkToolkit (fun _ _ _ _ => Ok [tx "ns1/tx99" 99 0]) (fun _ => Ok 120).

(** Two requests for one signer: the first has its nonce and has not
    completed, the second waits for it. *)
Definition contended
    : Nonces.simpleTransactionHandler * list Nonces.goroutine :=
  (Nonces.mkHandler false {[ "0xaaaaa" := 0%nat ]}
     [Nonces.mkLockedNonce "ns1/a" "0xaaaaa" Nonces.ChanOpen 100 None],
   [Nonces.mkGoroutine "ns1/a" "0xaaaaa" (Nonces.Returned (Ok 0%nat)) false;
    Nonces.mkGoroutine "ns1/b" "0xaaaaa" (Nonces.AwaitUnlocked 0) false]).

(** Two requests for two signers, both about to ask for a nonce. *)
Definition two_signers : list Nonces.goroutine :=
  [Nonces.mkGoroutine "ns1/a" "0xaaaaa" Nonces.LoopHead false;
   Nonces.mkGoroutine "ns1/c" "0xbbbbb" Nonces.LoopHead false].

(** The first of them has its nonce. *)
Definition first_served
    : Nonces.simpleTransactionHandler * list Nonces.goroutine :=
  (Nonces.mkHandler false {[ "0xaaaaa" := 0%nat ]}
     [Nonces.mkLockedNonce "ns1/a" "0xaaaaa" Nonces.ChanOpen 100 None],
   [Nonces.mkGoroutine "ns1/a" "0xaaaaa" (Nonces.Returned (Ok 0%nat)) false;
    Nonces.mkGoroutine "ns1/c" "0xbbbbb" Nonces.LoopHead false]).

(** The second of them has then taken the lock of its own signer. *)
Definition both_served
    : Nonces.simpleTransactionHandler * list Nonces.goroutine :=
  (Nonces.mkHandler false {[ "0xaaaaa" := 0%nat; "0xbbbbb" := 1%nat ]}
     [Nonces.mkLockedNonce "ns1/a" "0xaaaaa" Nonces.ChanOpen 100 None;
      Nonces.mkLockedNonce "ns1/c" "0xbbbbb" Nonces.ChanOpen 0 None],
   [Nonces.mkGoroutine "ns1/a" "0xaaaaa" (Nonces.Returned (Ok 0%nat)) false;
    Nonces.mkGoroutine "ns1/c" "0xbbbbb" (Nonces.DoLookup 1) false]).

End Scenarios.

(** * Properties *)

(** ** Unsigned 64-bit arithmetic *)




Lemma Uint64_small (i : Z) : 0 <= i < uint64_modulus -> Uint64 i = i.
Proof.
  intros Hi. unfold Uint64.
  destruct (Z.leb_spec 0 i); destruct (Z.ltb_spec i uint64_modulus); cbn;
    lia.
Qed.


Lemma add64_succ_small (i : Z) :
  0 <= i < uint64_modulus - 1 -> add64 (Uint64 i) 1 = i + 1.
Proof.
  intros Hi. rewrite Uint64_small by lia. unfold add64.
  apply Z.mod_small. lia.
Qed.


(** ** The next-nonce computation *)

Section CalcNextNonce.

Import Nonces.

Variable toolkit : Toolkit.
Variables nonceStateTimeout now : Z.
Variable signer : string.

Let q := CallListTransactionsByNonce signer None 1 SortDirectionDescending.
Let c := CallNextNonceForSigner signer.

Lemma calcNextNonce_list_error (e : string) :
  ListTransactionsByNonce toolkit signer None 1 SortDirectionDescending = Err e ->
  calcNextNonce toolkit nonceStateTimeout now signer = ([q], Err e).
Proof.
  intros H. unfold calcNextNonce, SortDirectionDescending in *.
  now rewrite H.
Qed.

Lemma calcNextNonce_fresh (txns : list ManagedTX) (l : ManagedTX) :
  ListTransactionsByNonce toolkit signer None 1 SortDirectionDescending = Ok txns ->
  head txns = Some l ->
  time_Since now (Created l) < nonceStateTimeout ->
  calcNextNonce toolkit nonceStateTimeout now signer
  = ([q], Ok (add64 (Uint64 (Nonce l)) 1)).
Proof.
  intros H Hh Hf. unfold calcNextNonce, SortDirectionDescending in *.
  rewrite H, Hh.
  apply Z.ltb_lt in Hf. now rewrite Hf.
Qed.

Lemma calcNextNonce_node_error (txns : list ManagedTX) (e : string) :
  ListTransactionsByNonce toolkit signer None 1 SortDirectionDescending = Ok txns ->
  (forall l, head txns = Some l ->
             ~ time_Since now (Created l) < nonceStateTimeout) ->
  NextNonceForSigner toolkit signer = Err e ->
  calcNextNonce toolkit nonceStateTimeout now signer = ([q; c], Err e).
Proof.
  intros H Hs Hn. unfold calcNextNonce, SortDirectionDescending in *.
  rewrite H, Hn.
  destruct (head txns) as [l|]; [ | reflexivity].
  specialize (Hs l eq_refl).
  apply Z.ltb_nlt in Hs. now rewrite Hs.
Qed.

Lemma calcNextNonce_node (txns : list ManagedTX) (node : Z) :
  ListTransactionsByNonce toolkit signer None 1 SortDirectionDescending = Ok txns ->
  (forall l, head txns = Some l ->
             ~ time_Since now (Created l) < nonceStateTimeout) ->
  NextNonceForSigner toolkit signer = Ok node ->
  calcNextNonce toolkit nonceStateTimeout now signer
  = ([q; c],
     Ok match head txns with
        | Some l =>
          if decide (Uint64 (Nonce l) >= Uint64 node)
          then add64 (Uint64 (Nonce l)) 1
          else Uint64 node
        | None => Uint64 node
        end).
Proof.
  intros H Hs Hn. unfold calcNextNonce, SortDirectionDescending in *.
  rewrite H, Hn.
  destruct (head txns) as [l|]; [ | reflexivity].
  specialize (Hs l eq_refl).
  apply Z.ltb_nlt in Hs. rewrite Hs.
  destruct (Z.leb_spec (Uint64 node) (Uint64 (Nonce l)));
    destruct (decide (Uint64 (Nonce l) >= Uint64 node)); try reflexivity; lia.
Qed.

(** C1.  The next-nonce computation first reads the signer's most recent
    persisted transaction (descending nonce, limit 1).  When there is one
    and it was created within [nonceStateTimeout], the result is its nonce
    plus one and the connector is not consulted.  Otherwise the connector is
    asked, and the result is the local nonce plus one when a stale local
    record has a nonce greater than or equal to the node's answer, else the
    node's answer.  Nonces are compared and incremented as [uint64], after
    the conversion [Uint64], which is ordinary arithmetic for values in
    range; a value that does not fit counts as 0. *)
Theorem calcNextNonce_spec :
  head (fst (calcNextNonce toolkit nonceStateTimeout now signer)) = Some q
  /\ (forall txns,
        ListTransactionsByNonce toolkit signer None 1 SortDirectionDescending
        = Ok txns ->
        (forall l,
           head txns = Some l ->
           time_Since now (Created l) < nonceStateTimeout ->
           calcNextNonce toolkit nonceStateTimeout now signer
           = ([q], Ok (add64 (Uint64 (Nonce l)) 1)))
        /\ (forall node,
              (forall l, head txns = Some l ->
                         ~ time_Since now (Created l) < nonceStateTimeout) ->
              NextNonceForSigner toolkit signer = Ok node ->
              calcNextNonce toolkit nonceStateTimeout now signer
              = ([q; c],
                 Ok match head txns with
                    | Some l =>
                      if decide (Uint64 (Nonce l) >= Uint64 node)
                      then add64 (Uint64 (Nonce l)) 1
                      else Uint64 node
                    | None => Uint64 node
                    end)))
  /\ (forall n, 0 <= n < uint64_modulus - 1 -> add64 (Uint64 n) 1 = n + 1)
  /\ (forall n, 0 <= n < uint64_modulus -> Uint64 n = n).
Proof.
  split; [ | split; [ | split]].
  - unfold calcNextNonce.
    destruct (ListTransactionsByNonce toolkit signer None 1 1) as [txns|e];
      [ | reflexivity].
    destruct (head txns) as [l|].
    + destruct (time_Since now (Created l) <? nonceStateTimeout);
        [reflexivity | ].
      destruct (NextNonceForSigner toolkit signer); [ | reflexivity].
      now destruct (_ <=? _).
    + now destruct (NextNonceForSigner toolkit signer).
  - intros txns H. split.
    + intros l. now apply calcNextNonce_fresh.
    + intros node. now apply calcNextNonce_node.
  - apply add64_succ_small.
  - apply Uint64_small.
Qed.



End CalcNextNonce.

Lemma calcNextNonce_spec_witness :
  Nonces.calcNextNonce Scenarios.fresh_toolkit Scenarios.hour 100 "0xaaaaa"
  = ([Nonces.CallListTransactionsByNonce "0xaaaaa" None 1
        SortDirectionDescending], Ok 100).
Proof.
  destruct (calcNextNonce_spec Scenarios.fresh_toolkit Scenarios.hour 100
              "0xaaaaa") as [_ [H _]].
  destruct (H _ eq_refl) as [Hfresh _].
  exact (Hfresh _ eq_refl eq_refl).
Defined.



(** ** The nonce lock *)

Section NonceLock.

Import Nonces.

Lemma complete_open (sth : simpleTransactionHandler) (ln : nat)
    (o : lockedNonce) :
  mux sth = false ->
  heap sth !! ln = Some o ->
  unlocked o = ChanOpen ->
  complete sth ln
  = Returns {| mux := false;
               lockedNonces := delete (signer o) (lockedNonces sth);
               heap := <[ln := close_unlocked o]> (heap sth) |}.
Proof.
  intros Hm Ho Hc. unfold complete. now rewrite Ho, Hm, Hc.
Qed.

Lemma complete_closed (sth : simpleTransactionHandler) (ln : nat)
    (o : lockedNonce) :
  mux sth = false ->
  heap sth !! ln = Some o ->
  unlocked o = ChanClosed ->
  complete sth ln
  = Panics {| mux := true;
              lockedNonces := delete (signer o) (lockedNonces sth);
              heap := heap sth |}.
Proof.
  intros Hm Ho Hc. unfold complete. now rewrite Ho, Hm, Hc.
Qed.

Lemma complete_returns_inv (sth sth' : simpleTransactionHandler) (ln : nat) :
  complete sth ln = Returns sth' ->
  exists o,
    mux sth = false /\ heap sth !! ln = Some o /\ unlocked o = ChanOpen
    /\ sth' = {| mux := false;
                 lockedNonces := delete (signer o) (lockedNonces sth);
                 heap := <[ln := close_unlocked o]> (heap sth) |}.
Proof.
  unfold complete.
  destruct (heap sth !! ln) as [o|] eqn:Ho; [ | discriminate].
  destruct (mux sth) eqn:Hm; [discriminate | ].
  destruct (unlocked o) eqn:Hc; [ | discriminate].
  intros [= <-]. now exists o.
Qed.

Lemma receive_unlocked_closed (sth : simpleTransactionHandler) (ln : nat)
    (o : lockedNonce) :
  heap sth !! ln = Some o -> unlocked o = ChanClosed ->
  receive_unlocked sth ln = true.
Proof. intros Ho Hc. unfold receive_unlocked. now rewrite Ho, Hc. Qed.

(** A closed channel stays closed, its handle keeps its signer and the
    mutex is free between steps, whatever the other goroutines do. *)
Lemma completed_handle_insert (ln k : nat) (s : string) (o' : lockedNonce)
    (m : gmap string nat) (sth : simpleTransactionHandler) :
  completed_handle ln s sth ->
  (forall o, heap sth !! k = Some o ->
             signer o' = signer o
             /\ (unlocked o = ChanClosed -> unlocked o' = ChanClosed)) ->
  completed_handle ln s
    {| mux := false; lockedNonces := m; heap := <[k := o']> (heap sth) |}.
Proof.
  intros [Hm (o & Ho & Hc & Hs)] Hk. split; [reflexivity | ]. cbn.
  destruct (decide (k = ln)) as [->|Hne].
  - exists o'. destruct (Hk o Ho) as [Hs' Hc'].
    split; [ | split; [auto | congruence]].
    apply list_lookup_insert_eq. now apply lookup_lt_Some in Ho.
  - exists o. rewrite list_lookup_insert_ne by trivial. auto.
Qed.

Lemma completed_handle_step (ln : nat) (s : string)
    (sth sth' : simpleTransactionHandler) :
  completed_handle ln s sth -> handler_step sth sth' ->
  completed_handle ln s sth'.
Proof.
  intros Hinv Hstep. pose proof Hinv as [Hm (o & Ho & Hc & Hs)].
  destruct Hstep as [tk t now id sg p p' H | k H].
  - destruct p as [ | locked | locked | locked e | r]; cbn in H.
    + rewrite Hm in H.
      destruct (lockedNonces sth !! sg); injection H as <- <-; [exact Hinv | ].
      split; [reflexivity | ]. exists o. cbn.
      rewrite lookup_app_l by (now apply lookup_lt_Some in Ho). auto.
    + destruct (receive_unlocked sth locked); [ | discriminate].
      now injection H as <- <-.
    + destruct (snd (calcNextNonce tk t now sg)); [ | now injection H as <- <-].
      destruct (heap sth !! locked) as [o1|] eqn:Ho1; [ | discriminate].
      injection H as <- <-. rewrite Hm.
      apply completed_handle_insert; [exact Hinv | ].
      intros o2 Ho2. rewrite Ho1 in Ho2. injection Ho2 as <-. auto.
    + destruct (complete sth locked) as [sth1 | | | ] eqn:Hcomp;
        try discriminate.
      injection H as <- <-.
      apply complete_returns_inv in Hcomp as (o1 & _ & Ho1 & _ & ->).
      apply completed_handle_insert; [exact Hinv | ].
      intros o2 Ho2. rewrite Ho1 in Ho2. injection Ho2 as <-. auto.
    + discriminate.
  - apply complete_returns_inv in H as (o1 & _ & Ho1 & _ & ->).
    apply completed_handle_insert; [exact Hinv | ].
    intros o2 Ho2. rewrite Ho1 in Ho2. injection Ho2 as <-. auto.
Qed.

Lemma completed_handle_steps (ln : nat) (s : string)
    (sth sth' : simpleTransactionHandler) :
  completed_handle ln s sth -> rtc handler_step sth sth' ->
  completed_handle ln s sth'.
Proof.
  intros Hinv Hsteps. induction Hsteps as [ | x y z Hxy _ IH]; [exact Hinv | ].
  apply IH. now apply (completed_handle_step ln s x).
Qed.

(** While a handle is held and open, every other call for the signer finds
    the entry at the head of the loop, waits on that handle and blocks: the
    nonce is computed by one caller at a time. *)
Lemma held_excludes (toolkit : Toolkit) (nonceStateTimeout now : Z)
    (nsOpID : string) (sth : simpleTransactionHandler) (ln : nat)
    (o : lockedNonce) :
  mux sth = false ->
  lockedNonces sth !! signer o = Some ln ->
  heap sth !! ln = Some o ->
  unlocked o = ChanOpen ->
  assignAndLockNonce_step toolkit nonceStateTimeout now nsOpID (signer o)
    sth LoopHead = Returns (sth, AwaitUnlocked ln)
  /\ assignAndLockNonce_step toolkit nonceStateTimeout now nsOpID (signer o)
       sth (AwaitUnlocked ln) = Blocks.
Proof.
  intros Hm Hmap Ho Hc. cbn [assignAndLockNonce_step].
  rewrite Hm, Hmap. unfold receive_unlocked. now rewrite Ho, Hc.
Qed.

(** C9.  [complete] may be called once on a handle.  After a first call
    has returned, and whatever the other goroutines have done since, a
    second call on the same handle panics on closing the closed channel,
    having deleted the signer's entry of the map, whichever handle that
    entry then pointed to, and with the mutex still held. *)
Theorem complete_twice_panics (sth sth1 sth2 : simpleTransactionHandler)
    (ln : nat) :
  complete sth ln = Returns sth1 ->
  rtc handler_step sth1 sth2 ->
  exists o,
    heap sth2 !! ln = Some o
    /\ unlocked o = ChanClosed
    /\ complete sth2 ln
       = Panics {| mux := true;
                   lockedNonces := delete (signer o) (lockedNonces sth2);
                   heap := heap sth2 |}
    /\ delete (signer o) (lockedNonces sth2) !! signer o = None.
Proof.
  intros Hfirst Hsteps.
  apply complete_returns_inv in Hfirst as (o & Hm & Ho & Hc & ->).
  assert (Hinv : completed_handle ln (signer o) sth2).
  { eapply completed_handle_steps; [ | exact Hsteps].
    split; [reflexivity | ]. exists (close_unlocked o). cbn.
    split; [ | auto].
    apply list_lookup_insert_eq. now apply lookup_lt_Some in Ho. }
  destruct Hinv as [Hm2 (o2 & Ho2 & Hc2 & Hs2)].
  exists o2. split; [exact Ho2 | ]. split; [exact Hc2 | ].
  split; [now apply complete_closed | apply lookup_delete_eq].
Qed.

End NonceLock.

Lemma complete_twice_panics_witness :
  Nonces.lockedNonces Scenarios.held_again !! "0xaaaaa" = Some 1%nat
  /\ Nonces.complete Scenarios.held_again 0
     = Nonces.Panics (Nonces.mkHandler true ∅
                        (Nonces.heap Scenarios.held_again)).
Proof.
  split; [reflexivity | ].
  assert (Hsteps : rtc Nonces.handler_step
                     (Nonces.mkHandler false ∅
                        [Nonces.mkLockedNonce "ns1/op1" "0xaaaaa"
                           Nonces.ChanClosed 100 None])
                     Scenarios.held_again).
  { apply rtc_once.
    apply (Nonces.step_assign _ _ Scenarios.fresh_toolkit Scenarios.hour 100
             "ns1/op2" "0xaaaaa" Nonces.LoopHead (Nonces.DoLookup 1)).
    reflexivity. }
  destruct (complete_twice_panics Scenarios.held _ Scenarios.held_again 0%nat
              eq_refl Hsteps) as (o & Ho & _ & Hp & _).
  injection Ho as <-. exact Hp.
Defined.

(** ** Mutual exclusion *)

Section MutualExclusion.

Import Nonces.

Lemma lock_invariant_update (sth sth' : simpleTransactionHandler)
    (gs : list goroutine) (i : nat) (g g' : goroutine) :
  lock_invariant (sth, gs) ->
  gs !! i = Some g ->
  g_signer g' = g_signer g ->
  mux sth' = false ->
  (forall l, holding g' = Some l ->
     (lockedNonces sth' !! g_signer g = Some l
      /\ exists o, heap sth' !! l = Some o /\ signer o = g_signer g
                   /\ unlocked o = ChanOpen)
     /\ forall j h, j <> i -> gs !! j = Some h -> holding h <> Some l) ->
  (forall j h l, j <> i -> gs !! j = Some h -> holding h = Some l ->
     lockedNonces sth' !! g_signer h = Some l
     /\ exists o, heap sth' !! l = Some o /\ signer o = g_signer h
                  /\ unlocked o = ChanOpen) ->
  lock_invariant (sth', <[i := g']> gs).
Proof.
  intros (Hm & Hheld & Huniq) Hi Hs Hm' Hnew Hframe.
  split; [exact Hm' | ]. split.
  - intros j h l Hj Hh.
    apply list_lookup_insert_Some in Hj as [(<- & <- & _) | (Hne & Hj)].
    + rewrite Hs. now apply Hnew.
    + now apply (Hframe j h l).
  - intros j k h h' l Hj Hk Hh Hh'.
    apply list_lookup_insert_Some in Hj as [(<- & <- & _) | (Hne & Hj)];
      apply list_lookup_insert_Some in Hk as [(<- & <- & _) | (Hne' & Hk)].
    + reflexivity.
    + destruct (Hnew l Hh) as [_ Hother].
      exfalso. now apply (Hother k h').
    + destruct (Hnew l Hh') as [_ Hother].
      exfalso. now apply (Hother j h).
    + now apply (Huniq j k h h' l).
Qed.

Lemma lock_invariant_step (sys sys' : simpleTransactionHandler * list goroutine) :
  lock_invariant sys -> system_step sys sys' -> lock_invariant sys'.
Proof.
  intros Hinv Hstep. destruct Hstep as
    [sth gs i g tk t now sth' p' Hi Hc Hstep | sth gs i g l sth' Hi Hc Hpc Hcomp].
  - pose proof Hinv as (Hm & Hheld & Huniq).
    destruct (g_pc g) as [ | locked | locked | locked e | r] eqn:Hpc;
      cbn [assignAndLockNonce_step] in Hstep.
    + (* loop head *)
      rewrite Hm in Hstep.
      destruct (lockedNonces sth !! g_signer g) as [locked|] eqn:Hmap;
        injection Hstep as <- <-.
      * apply (lock_invariant_update sth sth gs i g); trivial.
        -- intros l. unfold holding. cbn. discriminate.
        -- intros j h l _ Hj Hh. now apply (Hheld j h l).
      * apply (lock_invariant_update sth _ gs i g); trivial.
        -- intros l. unfold holding. cbn. intros [= <-]. split.
           ++ split; [apply lookup_insert_eq | ].
              exists (mkLockedNonce (g_nsOpID g) (g_signer g) ChanOpen 0 None).
              split; [ | split; reflexivity].
              cbn [heap]. rewrite lookup_app_r by reflexivity.
              now rewrite Nat.sub_diag.
           ++ intros j h Hne Hj Hh.
              destruct (Hheld j h _ Hj Hh) as (_ & o & Ho & _).
              apply lookup_lt_Some in Ho. lia.
        -- intros j h l Hne Hj Hh.
           destruct (Hheld j h l Hj Hh) as (Hmapj & o & Ho & Hso & Hopen).
           cbn [lockedNonces heap]. split.
           ++ rewrite lookup_insert_ne; [exact Hmapj | ].
              intros Heq. rewrite Heq, Hmapj in Hmap. discriminate.
           ++ exists o. rewrite lookup_app_l by (now apply lookup_lt_Some in Ho).
              auto.
    + (* waiting *)
      destruct (receive_unlocked sth locked); [ | discriminate].
      injection Hstep as <- <-.
      apply (lock_invariant_update sth sth gs i g); trivial.
      * intros l. unfold holding. cbn. discriminate.
      * intros j h l _ Hj Hh. now apply (Hheld j h l).
    + (* lookup *)
      assert (Hg : holding g = Some locked)
        by (unfold holding; now rewrite Hc, Hpc).
      destruct (Hheld i g locked Hi Hg) as (Hmapi & o & Ho & Hso & Hopen).
      destruct (snd (calcNextNonce tk t now (g_signer g))) as [n|e].
      * rewrite Ho in Hstep. injection Hstep as <- <-.
        apply (lock_invariant_update sth _ gs i g); trivial.
        -- intros l. unfold holding. cbn. intros [= <-]. split.
           ++ split; [exact Hmapi | ].
              exists (set_nonce o n). cbn [heap]. split; [ | now split].
              apply list_lookup_insert_eq. now apply lookup_lt_Some in Ho.
           ++ intros j h Hne Hj Hh. apply Hne.
              now apply (Huniq j i h g locked).
        -- intros j h l Hne Hj Hh.
           destruct (Hheld j h l Hj Hh) as (Hmapj & oj & Hoj & Hsj & Hopenj).
           split; [exact Hmapj | ]. exists oj. cbn [heap].
           rewrite list_lookup_insert_ne; [auto | ].
           intros <-. apply Hne. now apply (Huniq j i h g locked).
      * injection Hstep as <- <-.
        apply (lock_invariant_update sth sth gs i g); trivial.
        -- intros l. unfold holding. cbn. intros [= <-]. split.
           ++ split; [exact Hmapi | ]. now exists o.
           ++ intros j h Hne Hj Hh. apply Hne.
              now apply (Huniq j i h g locked).
        -- intros j h l _ Hj Hh. now apply (Hheld j h l).
    + (* completing on failure *)
      assert (Hg : holding g = Some locked)
        by (unfold holding; now rewrite Hc, Hpc).
      destruct (Hheld i g locked Hi Hg) as (Hmapi & o & Ho & Hso & Hopen).
      rewrite (complete_open sth locked o Hm Ho Hopen) in Hstep.
      injection Hstep as <- <-.
      apply (lock_invariant_update sth _ gs i g); trivial.
      * intros l. unfold holding. cbn. discriminate.
      * intros j h l Hne Hj Hh.
        destruct (Hheld j h l Hj Hh) as (Hmapj & oj & Hoj & Hsj & Hopenj).
        assert (Hl : l <> locked).
        { intros ->. apply Hne. now apply (Huniq j i h g locked). }
        cbn [lockedNonces heap]. split.
        -- rewrite lookup_delete_ne; [exact Hmapj | ].
           rewrite Hso. intros Heq. rewrite Heq, Hmapj in Hmapi.
           injection Hmapi as ->. now apply Hl.
        -- exists oj. rewrite list_lookup_insert_ne by auto. auto.
    + discriminate.
  - pose proof Hinv as (Hm & Hheld & Huniq).
    assert (Hg : holding g = Some l) by (unfold holding; now rewrite Hc, Hpc).
    destruct (Hheld i g l Hi Hg) as (Hmapi & o & Ho & Hso & Hopen).
    rewrite (complete_open sth l o Hm Ho Hopen) in Hcomp.
    injection Hcomp as <-.
    apply (lock_invariant_update sth _ gs i g); trivial.
    + intros l'. unfold holding. cbn. discriminate.
    + intros j h l' Hne Hj Hh.
      destruct (Hheld j h l' Hj Hh) as (Hmapj & oj & Hoj & Hsj & Hopenj).
      assert (Hl : l' <> l).
      { intros ->. apply Hne. now apply (Huniq j i h g l). }
      cbn [lockedNonces heap]. split.
      * rewrite lookup_delete_ne; [exact Hmapj | ].
        rewrite Hso. intros Heq. rewrite Heq, Hmapj in Hmapi.
        injection Hmapi as ->. now apply Hl.
      * exists oj. rewrite list_lookup_insert_ne by auto. auto.
Qed.

Lemma lock_invariant_steps
    (sys sys' : simpleTransactionHandler * list goroutine) :
  lock_invariant sys -> rtc system_step sys sys' -> lock_invariant sys'.
Proof.
  intros Hinv Hsteps. induction Hsteps as [ | x y z Hxy _ IH]; [exact Hinv | ].
  apply IH. now apply (lock_invariant_step x).
Qed.

Lemma lock_invariant_init (gs : list goroutine) :
  Forall (fun g => g_pc g = LoopHead) gs ->
  lock_invariant (mkHandler false ∅ [], gs).
Proof.
  intros Hinit.
  assert (Hnone : forall i g l, gs !! i = Some g -> holding g <> Some l).
  { intros i g l Hi. rewrite Forall_forall in Hinit.
    unfold holding. rewrite (Hinit g) by (now apply list_elem_of_lookup_2 in Hi).
    now destruct (g_completed g). }
  split; [reflexivity | ]. split.
  - intros i g l Hi Hh. destruct (Hnone i g l Hi Hh).
  - intros i j g g' l Hi _ Hh. destruct (Hnone i g l Hi Hh).
Qed.

(** X12.  Mutual exclusion: however the goroutines interleave from a start
    where each is at the head of the loop, two of them never hold handles
    for the same signer at once, so a signer's next nonce is computed and
    used by one request at a time. *)
Theorem mutual_exclusion (gs0 gs : list goroutine)
    (sth : simpleTransactionHandler) :
  Forall (fun g => g_pc g = LoopHead) gs0 ->
  rtc system_step (mkHandler false ∅ [], gs0) (sth, gs) ->
  forall i j g g' l l',
    gs !! i = Some g -> gs !! j = Some g' ->
    holding g = Some l -> holding g' = Some l' ->
    g_signer g = g_signer g' ->
    i = j.
Proof.
  intros Hinit Hsteps i j g g' l l' Hi Hj Hh Hh' Hs.
  destruct (lock_invariant_steps _ _ (lock_invariant_init gs0 Hinit) Hsteps)
    as (_ & Hheld & Huniq).
  destruct (Hheld i g l Hi Hh) as [Hm _].
  destruct (Hheld j g' l' Hj Hh') as [Hm' _].
  rewrite Hs, Hm' in Hm. injection Hm as ->.
  now apply (Huniq i j g g' l).
Qed.

(** Scenario 5 of the specification, nonce contention: of two requests for
    one signer whose last record has nonce 99, the first through takes the
    lock and receives 100; the other waits, is released when the first
    completes, having persisted its transaction, and receives 101. *)
Lemma nonce_contention :
  exists sth,
    rtc system_step (Scenarios.idle, Scenarios.two_callers)
      (sth,
       [mkGoroutine "ns1/a" "0xaaaaa" (Returned (Ok 0%nat)) true;
        mkGoroutine "ns1/b" "0xaaaaa" (Returned (Ok 1%nat)) false])
    /\ heap_nonce sth 0 = Some 100
    /\ heap_nonce sth 1 = Some 101.
Proof.
  eexists. split.
  - eapply rtc_l.
    { eapply (system_call _ _ 0%nat _ Scenarios.fresh_toolkit Scenarios.hour 5);
        reflexivity. }
    eapply rtc_l.
    { eapply (system_call _ _ 1%nat _ Scenarios.fresh_toolkit Scenarios.hour 5);
        reflexivity. }
    eapply rtc_l.
    { eapply (system_call _ _ 0%nat _ Scenarios.fresh_toolkit Scenarios.hour 5);
        reflexivity. }
    eapply rtc_l.
    { eapply (system_complete _ _ 0%nat _ 0%nat); reflexivity. }
    eapply rtc_l.
    { eapply (system_call _ _ 1%nat _ Scenarios.after_first Scenarios.hour 6);
        reflexivity. }
    eapply rtc_l.
    { eapply (system_call _ _ 1%nat _ Scenarios.after_first Scenarios.hour 6);
        reflexivity. }
    eapply rtc_l.
    { eapply (system_call _ _ 1%nat _ Scenarios.after_first Scenarios.hour 6);
        reflexivity. }
    cbn. apply rtc_refl.
  - split; reflexivity.
Qed.

End MutualExclusion.

Section NonceLockRelease.

Import Nonces.

(** C8, as the specification states it, fails: with two callers waiting
    on the handle, closing its channel wakes both, not exactly one. *)
Lemma complete_wakes_every_waiter :
  exists sth',
    complete Scenarios.held 0 = Returns sth'
    /\ woken Scenarios.held [0; 0]%nat = []
    /\ woken sth' [0; 0]%nat = [0; 0]%nat
    /\ length (woken sth' [0; 0]%nat) <> 1%nat.
Proof.
  eexists. split; [reflexivity | ].
  split; [reflexivity | ]. split; [reflexivity | ].
  cbn. discriminate.
Qed.

Lemma woken_all (sth : simpleTransactionHandler) (ln : nat)
    (waiting : list nat) :
  receive_unlocked sth ln = true ->
  Forall (eq ln) waiting ->
  woken sth waiting = waiting.
Proof.
  intros Hr Hall. unfold woken.
  induction Hall as [ | w ws <- _ IH]; [reflexivity | ].
  rewrite filter_cons_True by exact Hr. now rewrite IH.
Qed.

(** C8, amended.  [complete] on a held handle removes the signer's entry
    and closes the channel, which releases every caller waiting on it.
    Each of them goes back to the head of the loop; the first one through
    takes the lock with a new handle, and any caller for the signer that
    comes after it finds the entry, waits on the new handle and blocks. *)
Theorem complete_releases_waiters (sth : simpleTransactionHandler)
    (ln : nat) (o : lockedNonce) :
  mux sth = false ->
  heap sth !! ln = Some o ->
  unlocked o = ChanOpen ->
  exists sth',
    complete sth ln = Returns sth'
    /\ lockedNonces sth' !! signer o = None
    /\ receive_unlocked sth' ln = true
    /\ (forall waiting, Forall (eq ln) waiting -> woken sth' waiting = waiting)
    /\ (forall toolkit timeout now nsOpID nsOpID',
          assignAndLockNonce_step toolkit timeout now nsOpID (signer o)
            sth' (AwaitUnlocked ln) = Returns (sth', LoopHead)
          /\ exists sth'',
               let next := length (heap sth') in
               assignAndLockNonce_step toolkit timeout now nsOpID (signer o)
                 sth' LoopHead = Returns (sth'', DoLookup next)
               /\ lockedNonces sth'' !! signer o = Some next
               /\ assignAndLockNonce_step toolkit timeout now nsOpID'
                    (signer o) sth'' LoopHead
                  = Returns (sth'', AwaitUnlocked next)
               /\ assignAndLockNonce_step toolkit timeout now nsOpID'
                    (signer o) sth'' (AwaitUnlocked next) = Blocks).
Proof.
  intros Hm Ho Hc.
  eexists. split; [exact (complete_open sth ln o Hm Ho Hc) | ].
  assert (Hr : receive_unlocked
                 {| mux := false;
                    lockedNonces := delete (signer o) (lockedNonces sth);
                    heap := <[ln := close_unlocked o]> (heap sth) |} ln = true).
  { apply (receive_unlocked_closed _ _ (close_unlocked o)); [ | reflexivity].
    cbn. apply list_lookup_insert_eq. now apply lookup_lt_Some in Ho. }
  split; [apply lookup_delete_eq | ].
  split; [exact Hr | ].
  split; [intros waiting; now apply woken_all | ].
  intros tk t now id id'. split.
  - cbn [assignAndLockNonce_step]. now rewrite Hr.
  - eexists. cbn zeta. split; [ | split; [ | split]].
    + cbn [assignAndLockNonce_step mux lockedNonces].
      rewrite lookup_delete_eq. reflexivity.
    + cbn. apply lookup_insert_eq.
    + cbn [assignAndLockNonce_step mux lockedNonces heap].
      now rewrite lookup_insert_eq.
    + cbn [assignAndLockNonce_step]. unfold receive_unlocked.
      cbn [heap].
      rewrite lookup_app_r by reflexivity.
      now rewrite Nat.sub_diag.
Qed.

End NonceLockRelease.

Lemma complete_releases_waiters_witness :
  exists sth',
    Nonces.complete Scenarios.held 0 = Nonces.Returns sth'
    /\ Nonces.lockedNonces sth' !! "0xaaaaa" = None
    /\ Nonces.woken sth' [0; 0; 0]%nat = [0; 0; 0]%nat.
Proof.
  destruct (complete_releases_waiters Scenarios.held 0%nat
              (Nonces.mkLockedNonce "ns1/op1" "0xaaaaa" Nonces.ChanOpen 100 None)
              eq_refl eq_refl eq_refl)
    as (sth' & Hc & Hgone & _ & Hwoken & _).
  exists sth'. split; [exact Hc | ]. split; [exact Hgone | ].
  apply Hwoken. repeat constructor.
Defined.

(** ** Failure of the nonce lookup *)

Section LookupFailure.

Import Nonces.

Variable toolkit : Toolkit.
Variables nonceStateTimeout now : Z.
Variables nsOpID signer : string.

Lemma query_fails_calcNextNonce (e : string) :
  query_fails toolkit nonceStateTimeout now signer e ->
  snd (calcNextNonce toolkit nonceStateTimeout now signer) = Err e.
Proof.
  intros [H | (txns & H & Hs & Hn)].
  - now rewrite (calcNextNonce_list_error _ _ _ _ _ H).
  - now rewrite (calcNextNonce_node_error _ _ _ _ _ _ H Hs Hn).
Qed.

(** From the point where the lookup is made, in any state in which the
    caller's handle is open. *)
Lemma lookup_failure_completes (sth : simpleTransactionHandler)
    (locked : nat) (o : lockedNonce) (e : string) :
  query_fails toolkit nonceStateTimeout now signer e ->
  mux sth = false ->
  heap sth !! locked = Some o ->
  unlocked o = ChanOpen ->
  Nonces.signer o = signer ->
  assignAndLockNonce_from 2 toolkit nonceStateTimeout now nsOpID signer sth
    (DoLookup locked)
  = Returns ({| mux := false;
                lockedNonces := delete signer (lockedNonces sth);
                heap := <[locked := close_unlocked o]> (heap sth) |},
             Err e).
Proof.
  intros Hq Hm Ho Hc Hs. apply query_fails_calcNextNonce in Hq.
  cbn [assignAndLockNonce_from assignAndLockNonce_step].
  rewrite Hq.
  cbn [assignAndLockNonce_from assignAndLockNonce_step].
  rewrite (complete_open sth locked o Hm Ho Hc). now rewrite Hs.
Qed.

(** A call that finds the signer unlocked takes the lock with a new
    handle and goes on to the lookup. *)
Lemma assignAndLockNonce_takes_lock (fuel : nat)
    (sth : simpleTransactionHandler) :
  mux sth = false ->
  lockedNonces sth !! signer = None ->
  assignAndLockNonce (S fuel) toolkit nonceStateTimeout now nsOpID signer sth
  = assignAndLockNonce_from fuel toolkit nonceStateTimeout now nsOpID signer
      {| mux := false;
         lockedNonces := <[signer := length (heap sth)]> (lockedNonces sth);
         heap := heap sth ++
                 [{| Nonces.nsOpID := nsOpID; Nonces.signer := signer;
                     unlocked := ChanOpen; nonce := 0; spent := None |}] |}
      (DoLookup (length (heap sth))).
Proof.
  intros Hm Hfree. unfold assignAndLockNonce.
  change (assignAndLockNonce_from (S fuel) toolkit nonceStateTimeout now
            nsOpID signer sth LoopHead)
    with (match assignAndLockNonce_step toolkit nonceStateTimeout now
                  nsOpID signer sth LoopHead with
          | Returns (sth', p') =>
            assignAndLockNonce_from fuel toolkit nonceStateTimeout now
              nsOpID signer sth' p'
          | Panics (sth', _) => Panics (sth', Err "panic")
          | Blocks => Blocks
          | OutOfFuel => OutOfFuel
          end).
  cbn [assignAndLockNonce_step]. now rewrite Hm, Hfree.
Qed.

(** A call that finds the signer unlocked. *)
Lemma lookup_failure_unlocks (sth : simpleTransactionHandler) (e : string) :
  query_fails toolkit nonceStateTimeout now signer e ->
  mux sth = false ->
  lockedNonces sth !! signer = None ->
  assignAndLockNonce 3 toolkit nonceStateTimeout now nsOpID signer sth
  = Returns ({| mux := false;
                lockedNonces := lockedNonces sth;
                heap := heap sth ++
                        [{| Nonces.nsOpID := nsOpID; Nonces.signer := signer;
                            unlocked := ChanClosed; nonce := 0;
                            spent := None |}] |},
             Err e).
Proof.
  intros Hq Hm Hfree.
  rewrite (assignAndLockNonce_takes_lock 2 sth Hm Hfree).
  set (o := {| Nonces.nsOpID := nsOpID; Nonces.signer := signer;
               unlocked := ChanOpen; nonce := 0; spent := None |}).
  rewrite (lookup_failure_completes _ (length (heap sth)) o e Hq);
    try reflexivity.
  - cbn [lockedNonces heap]. f_equal. f_equal. f_equal.
    + rewrite delete_insert_eq. now apply delete_id.
    + rewrite insert_app_r_alt by reflexivity.
      now rewrite Nat.sub_diag.
  - cbn [heap]. rewrite lookup_app_r by reflexivity.
    now rewrite Nat.sub_diag.
Qed.

(** C6.  When the persistence query or the connector query fails, the
    caller of [assignAndLockNonce] receives the error, and before that the
    handle has been completed: the signer's entry is removed and the
    channel closed, so the signer is left unlocked; no nonce has been
    assigned to the handle, and [HandleNewTransaction] returns the error
    with the persistence as it was. *)
Theorem assignAndLockNonce_failure (e : string) :
  query_fails toolkit nonceStateTimeout now signer e ->
  (forall sth locked o,
     mux sth = false -> heap sth !! locked = Some o ->
     unlocked o = ChanOpen -> Nonces.signer o = signer ->
     exists sth',
       assignAndLockNonce_from 2 toolkit nonceStateTimeout now nsOpID signer
         sth (DoLookup locked) = Returns (sth', Err e)
       /\ lockedNonces sth' !! signer = None
       /\ receive_unlocked sth' locked = true
       /\ heap_nonce sth' locked = Some (nonce o)
       /\ mux sth' = false)
  /\ (forall sth,
        mux sth = false -> lockedNonces sth !! signer = None ->
        exists sth',
          assignAndLockNonce 3 toolkit nonceStateTimeout now nsOpID signer sth
          = Returns (sth', Err e)
          /\ lockedNonces sth' = lockedNonces sth
          /\ receive_unlocked sth' (length (heap sth)) = true
          /\ heap_nonce sth' (length (heap sth)) = Some 0
          /\ forall r st,
               Handler.req_id r = nsOpID -> Handler.req_from r = signer ->
               Handler.req_now r = now -> Handler.req_prepare r = Ok tt ->
               Handler.toolkit_of r (Handler.db st) = toolkit ->
               Handler.handler st = sth ->
               Handler.HandleNewTransaction nonceStateTimeout r st
               = Returns ({| Handler.handler := sth';
                             Handler.db := Handler.db st |}, Err e)).
Proof.
  intros Hq. split.
  - intros sth locked o Hm Ho Hc Hs.
    eexists. split; [exact (lookup_failure_completes sth locked o e Hq Hm Ho Hc Hs) | ].
    assert (Hl : (<[locked := close_unlocked o]> (heap sth)) !! locked
                 = Some (close_unlocked o)).
    { apply list_lookup_insert_eq. now apply lookup_lt_Some in Ho. }
    split; [apply lookup_delete_eq | ].
    split; [now apply (receive_unlocked_closed _ _ (close_unlocked o)) | ].
    split; [ | reflexivity].
    unfold heap_nonce. cbn [heap]. now rewrite Hl.
  - intros sth Hm Hfree.
    eexists. split; [exact (lookup_failure_unlocks sth e Hq Hm Hfree) | ].
    split; [reflexivity | ].
    assert (Hl : forall o : lockedNonce,
               (heap sth ++ [o]) !! length (heap sth) = Some o).
    { intros o. rewrite lookup_app_r by reflexivity.
      now rewrite Nat.sub_diag. }
    split; [ | split].
    + unfold receive_unlocked. cbn [heap]. now rewrite Hl.
    + unfold heap_nonce. cbn [heap]. now rewrite Hl.
    + intros r st Hid Hfrom Hnow Hprep Htk Hsth.
      unfold Handler.HandleNewTransaction.
      rewrite Hprep, Htk, Hid, Hfrom, Hnow, Hsth.
      now rewrite (lookup_failure_unlocks sth e Hq Hm Hfree).
Qed.

End LookupFailure.

Lemma assignAndLockNonce_failure_witness :
  exists sth',
    Nonces.assignAndLockNonce 3 Scenarios.failing_toolkit Scenarios.hour 100
      "ns1/op1" "0xaaaaa" Scenarios.idle
    = Nonces.Returns (sth', Err "pop")
    /\ Nonces.lockedNonces sth' = ∅
    /\ Nonces.heap_nonce sth' 0 = Some 0.
Proof.
  destruct (assignAndLockNonce_failure Scenarios.failing_toolkit
              Scenarios.hour 100 "ns1/op1" "0xaaaaa" "pop"
              (or_introl eq_refl)) as [_ H].
  destruct (H Scenarios.idle eq_refl eq_refl)
    as (sth' & Hrun & Hmap & _ & Hnonce & _).
  exists sth'. split; [exact Hrun | ]. split; [exact Hmap | exact Hnonce].
Defined.

(** ** The persistence store *)

Section Store.

Import Persistence.









End Store.

(** ** Requests served under the lock *)

Section Requests.

Import Nonces.

Lemma assignAndLockNonce_uncontended (toolkit : Toolkit)
    (nonceStateTimeout now : Z) (nsOpID signer : string)
    (sth : simpleTransactionHandler) :
  mux sth = false ->
  lockedNonces sth !! signer = None ->
  assignAndLockNonce 3 toolkit nonceStateTimeout now nsOpID signer sth
  = match snd (calcNextNonce toolkit nonceStateTimeout now signer) with
    | Err e =>
      Returns ({| mux := false; lockedNonces := lockedNonces sth;
                  heap := heap sth ++
                          [mkLockedNonce nsOpID signer ChanClosed 0 None] |},
               Err e)
    | Ok n =>
      Returns ({| mux := false;
                  lockedNonces :=
                    <[signer := length (heap sth)]> (lockedNonces sth);
                  heap := heap sth ++
                          [mkLockedNonce nsOpID signer ChanOpen n None] |},
               Ok (length (heap sth)))
    end.
Proof.
  intros Hm Hfree.
  rewrite (assignAndLockNonce_takes_lock toolkit nonceStateTimeout now
             nsOpID signer 2 sth Hm Hfree).
  assert (Hl : forall o : lockedNonce,
             (heap sth ++ [o]) !! length (heap sth) = Some o).
  { intros o. rewrite lookup_app_r by reflexivity. now rewrite Nat.sub_diag. }
  assert (Hi : forall o o' : lockedNonce,
             <[length (heap sth) := o']> (heap sth ++ [o]) = heap sth ++ [o']).
  { intros o o'. rewrite insert_app_r_alt by reflexivity.
    now rewrite Nat.sub_diag. }
  cbn [assignAndLockNonce_from assignAndLockNonce_step].
  destruct (snd (calcNextNonce toolkit nonceStateTimeout now signer))
    as [n|e].
  - cbn [heap]. rewrite Hl.
    cbn [assignAndLockNonce_from mux lockedNonces heap].
    now rewrite Hi.
  - cbn [assignAndLockNonce_from assignAndLockNonce_step].
    unfold complete. cbn [heap mux lockedNonces]. rewrite Hl.
    cbn [unlocked Nonces.signer]. rewrite Hi.
    rewrite delete_insert_eq, delete_id by exact Hfree.
    reflexivity.
Qed.













End Requests.


(** ** The next-nonce computation: errors, calls and bounds *)

Section NextNonceEdges.

Import Nonces.

Variable toolkit : Toolkit.
Variables nonceStateTimeout now : Z.
Variable signer : string.

Let q := CallListTransactionsByNonce signer None 1 SortDirectionDescending.
Let c := CallNextNonceForSigner signer.

(** X1.  The computation fails exactly when the persistence read fails, or
    when that read finds no fresh record and the connector fails; the error
    returned is the error of the query that failed. *)
Theorem calcNextNonce_fails_iff (e : string) :
  snd (calcNextNonce toolkit nonceStateTimeout now signer) = Err e
  <-> query_fails toolkit nonceStateTimeout now signer e.
Proof.
  split.
  - unfold calcNextNonce, query_fails, SortDirectionDescending.
    destruct (ListTransactionsByNonce toolkit signer None 1 1) as [txns|e'];
      [ | cbn; intros [= ->]; now left].
    intros H. right. exists txns. split; [reflexivity | ].
    destruct (head txns) as [l|].
    + destruct (Z.ltb_spec (time_Since now (Created l)) nonceStateTimeout)
        as [Hf|Hf]; [discriminate | ].
      destruct (NextNonceForSigner toolkit signer) as [node|e'].
      * now destruct (_ <=? _).
      * cbn in H. injection H as ->. split; [ | reflexivity].
        intros l' [= <-]. lia.
    + destruct (NextNonceForSigner toolkit signer) as [node|e'];
        [discriminate | ].
      cbn in H. injection H as ->. split; [discriminate | reflexivity].
  - intros [H | (txns & H & Hs & Hn)].
    + now rewrite (calcNextNonce_list_error _ _ _ _ e H).
    + now rewrite (calcNextNonce_node_error _ _ _ _ txns e H Hs Hn).
Qed.

(** X2.  The collaborators are called in a fixed order: the persistence
    read first and once, then the connector at most once.  The connector is
    consulted exactly when the persistence read succeeded and its first
    record, if any, is not fresh. *)
Theorem calcNextNonce_calls :
  (fst (calcNextNonce toolkit nonceStateTimeout now signer) = [q]
   \/ fst (calcNextNonce toolkit nonceStateTimeout now signer) = [q; c])
  /\ (fst (calcNextNonce toolkit nonceStateTimeout now signer) = [q; c]
      <-> exists txns,
            ListTransactionsByNonce toolkit signer None 1
              SortDirectionDescending = Ok txns
            /\ forall l, head txns = Some l ->
                         ~ time_Since now (Created l) < nonceStateTimeout).
Proof.
  unfold calcNextNonce, SortDirectionDescending.
  destruct (ListTransactionsByNonce toolkit signer None 1 1) as [txns|e].
  - destruct (head txns) as [l|] eqn:Hh.
    + destruct (Z.ltb_spec (time_Since now (Created l)) nonceStateTimeout)
        as [Hf|Hf].
      * split; [now left | ]. split; [discriminate | ].
        intros (txns' & [= <-] & Hs). destruct (Hs l Hh Hf).
      * assert (Htr : fst match NextNonceForSigner toolkit signer with
                          | Ok nextNonceRes =>
                            if Uint64 nextNonceRes <=? Uint64 (Nonce l)
                            then ([q; c], Ok (add64 (Uint64 (Nonce l)) 1))
                            else ([q; c], Ok (Uint64 nextNonceRes))
                          | Err e => ([q; c], Err e)
                          end = [q; c]).
        { destruct (NextNonceForSigner toolkit signer); [ | reflexivity].
          now destruct (_ <=? _). }
        split; [now right | ]. split; [ | intros _; exact Htr].
        intros _. exists txns. split; [reflexivity | ].
        intros l' Hl'. rewrite Hh in Hl'. injection Hl' as <-. lia.
    + assert (Htr : fst match NextNonceForSigner toolkit signer with
                        | Ok nextNonceRes => ([q; c], Ok (Uint64 nextNonceRes))
                        | Err e => ([q; c], Err e)
                        end = [q; c])
        by (now destruct (NextNonceForSigner toolkit signer)).
      split; [now right | ]. split; [ | intros _; exact Htr].
      intros _. exists txns. split; [reflexivity | ].
      intros l'. rewrite Hh. discriminate.
  - split; [now left | ]. split; [discriminate | ].
    intros (txns & [=] & _).
Qed.

(** X3.  With a stale local record, and for values in the range of
    [uint64], whichever is further forwards wins: the result is the larger
    of the node's answer and the local nonce plus one. *)
Theorem calcNextNonce_furthest_forward (txns : list ManagedTX)
    (l : ManagedTX) (node : Z) :
  ListTransactionsByNonce toolkit signer None 1 SortDirectionDescending
  = Ok txns ->
  head txns = Some l ->
  ~ time_Since now (Created l) < nonceStateTimeout ->
  NextNonceForSigner toolkit signer = Ok node ->
  0 <= Nonce l < uint64_modulus - 1 ->
  0 <= node < uint64_modulus ->
  snd (calcNextNonce toolkit nonceStateTimeout now signer)
  = Ok (Z.max node (Nonce l + 1)).
Proof.
  intros H Hh Hs Hn Hl Hnode.
  rewrite (calcNextNonce_node _ _ _ _ txns node H); trivial.
  - rewrite Hh. cbn [snd].
    assert (Hu : Uint64 (Nonce l) = Nonce l)
      by (apply Uint64_small; unfold uint64_modulus in *; lia).
    rewrite add64_succ_small by trivial.
    rewrite Hu, (Uint64_small node) by trivial.
    destruct (decide (Nonce l >= node)); f_equal; lia.
  - intros l' Hl'. rewrite Hh in Hl'. now injection Hl' as <-.
Qed.

(** X4.  A nonce of the state store is not used again: whenever the
    computation returns, its result is above the nonce of the record the
    persistence read returned (below the largest [uint64]), fresh or
    stale and whatever the node answered. *)
Theorem calcNextNonce_above_local (txns : list ManagedTX) (l : ManagedTX)
    (n : Z) :
  ListTransactionsByNonce toolkit signer None 1 SortDirectionDescending
  = Ok txns ->
  head txns = Some l ->
  0 <= Nonce l < uint64_modulus - 1 ->
  snd (calcNextNonce toolkit nonceStateTimeout now signer) = Ok n ->
  Nonce l < n.
Proof.
  intros H Hh Hl. unfold calcNextNonce, SortDirectionDescending in *.
  rewrite H, Hh.
  assert (Hu : Uint64 (Nonce l) = Nonce l)
    by (apply Uint64_small; unfold uint64_modulus in *; lia).
  destruct (time_Since now (Created l) <? nonceStateTimeout).
  - intros [= <-]. rewrite add64_succ_small by trivial. lia.
  - destruct (NextNonceForSigner toolkit signer) as [node|]; [ | discriminate].
    destruct (Z.leb_spec (Uint64 node) (Uint64 (Nonce l))); intros [= <-].
    + rewrite add64_succ_small by trivial. lia.
    + lia.
Qed.

(** X5.  The freshness test is strict: a record that is
    [nonceStateTimeout] old or older, exactly that old included, is stale
    and the connector is consulted.  With a timeout of zero or less this is
    so for every record that was not created in the future. *)
Theorem calcNextNonce_stale_boundary (txns : list ManagedTX) :
  ListTransactionsByNonce toolkit signer None 1 SortDirectionDescending
  = Ok txns ->
  nonceStateTimeout <= maxDuration ->
  (forall l, head txns = Some l -> Created l + nonceStateTimeout <= now) ->
  fst (calcNextNonce toolkit nonceStateTimeout now signer) = [q; c].
Proof.
  intros H Hmax Hold. unfold calcNextNonce, SortDirectionDescending in *.
  rewrite H.
  destruct (head txns) as [l|].
  - specialize (Hold l eq_refl).
    destruct (Z.ltb_spec (time_Since now (Created l)) nonceStateTimeout)
      as [Hf|Hf].
    + unfold time_Since in Hf. lia.
    + destruct (NextNonceForSigner toolkit signer); [ | reflexivity].
      now destruct (_ <=? _).
  - now destruct (NextNonceForSigner toolkit signer).
Qed.

End NextNonceEdges.

Lemma calcNextNonce_fails_iff_witness :
  snd (Nonces.calcNextNonce Scenarios.failing_toolkit Scenarios.hour 100
         "0xaaaaa") = Err "pop".
Proof.
  apply (calcNextNonce_fails_iff Scenarios.failing_toolkit Scenarios.hour 100
           "0xaaaaa" "pop").
  left. reflexivity.
Defined.

Lemma calcNextNonce_furthest_forward_witness :
  snd (Nonces.calcNextNonce Scenarios.ahead_toolkit Scenarios.hour
         (2 * Scenarios.hour) "0xaaaaa") = Ok 120.
Proof.
  apply (calcNextNonce_furthest_forward Scenarios.ahead_toolkit Scenarios.hour
           (2 * Scenarios.hour) "0xaaaaa" [Scenarios.tx "ns1/tx99" 99 0]
           (Scenarios.tx "ns1/tx99" 99 0) 120);
    try reflexivity.
  - vm_compute. discriminate.
  - vm_compute. split; [discriminate | reflexivity].
  - vm_compute. split; [discriminate | reflexivity].
Defined.

Lemma calcNextNonce_above_local_witness : 99 < 100.
Proof.
  apply (calcNextNonce_above_local Scenarios.fresh_toolkit Scenarios.hour 100
           "0xaaaaa" [Scenarios.tx "ns1/tx99" 99 0]
           (Scenarios.tx "ns1/tx99" 99 0) 100); try reflexivity.
  vm_compute. split; [discriminate | reflexivity].
Defined.

Lemma calcNextNonce_stale_boundary_witness :
  fst (Nonces.calcNextNonce Scenarios.fresh_toolkit Scenarios.hour
         Scenarios.hour "0xaaaaa")
  = [Nonces.CallListTransactionsByNonce "0xaaaaa" None 1
       SortDirectionDescending;
     Nonces.CallNextNonceForSigner "0xaaaaa"].
Proof.
  apply (calcNextNonce_stale_boundary Scenarios.fresh_toolkit Scenarios.hour
           Scenarios.hour "0xaaaaa" [Scenarios.tx "ns1/tx99" 99 0]).
  - reflexivity.
  - vm_compute. discriminate.
  - intros l [= <-]. vm_compute. discriminate.
Defined.

(** ** Taking and releasing the nonce lock *)

Section LockUse.

Import Nonces.

Variable toolkit : Toolkit.
Variables nonceStateTimeout now : Z.

(** X6.  A call for a signer that has no entry does not wait, whatever is
    locked for other signers: when the computation succeeds it returns, in
    three steps, a new handle that is the signer's entry, is open and
    carries the computed nonce, with the mutex released; the entries of the
    other signers and the handles that existed are as they were. *)
Theorem assignAndLockNonce_returns_handle (nsOpID signer : string)
    (sth : simpleTransactionHandler) (n : Z) :
  mux sth = false ->
  lockedNonces sth !! signer = None ->
  snd (calcNextNonce toolkit nonceStateTimeout now signer) = Ok n ->
  exists sth',
    assignAndLockNonce 3 toolkit nonceStateTimeout now nsOpID signer sth
    = Returns (sth', Ok (length (heap sth)))
    /\ mux sth' = false
    /\ lockedNonces sth' !! signer = Some (length (heap sth))
    /\ heap sth' !! length (heap sth)
       = Some (mkLockedNonce nsOpID signer ChanOpen n None)
    /\ (forall s, s <> signer -> lockedNonces sth' !! s = lockedNonces sth !! s)
    /\ (forall l o, heap sth !! l = Some o -> heap sth' !! l = Some o).
Proof.
  intros Hm Hmap Hn.
  rewrite assignAndLockNonce_uncontended by trivial. rewrite Hn.
  eexists. split; [reflexivity | ]. cbn [mux lockedNonces heap].
  split; [reflexivity | ]. split; [apply lookup_insert_eq | ].
  split; [ | split].
  - rewrite lookup_app_r by reflexivity. now rewrite Nat.sub_diag.
  - intros s Hs. now rewrite lookup_insert_ne.
  - intros l o Ho. now rewrite lookup_app_l by (now apply lookup_lt_Some in Ho).
Qed.

(** X7.  Taking the lock and completing the handle is a round trip on the
    map: the map of locked nonces is again what it was before the call, and
    all that is left is the closed handle. *)
Theorem assign_complete_round_trip (nsOpID signer : string)
    (sth : simpleTransactionHandler) (n : Z) :
  mux sth = false ->
  lockedNonces sth !! signer = None ->
  snd (calcNextNonce toolkit nonceStateTimeout now signer) = Ok n ->
  exists sth1 ln,
    assignAndLockNonce 3 toolkit nonceStateTimeout now nsOpID signer sth
    = Returns (sth1, Ok ln)
    /\ complete sth1 ln
       = Returns {| mux := false;
                    lockedNonces := lockedNonces sth;
                    heap := heap sth
                            ++ [mkLockedNonce nsOpID signer ChanClosed n None] |}.
Proof.
  intros Hm Hmap Hn.
  rewrite assignAndLockNonce_uncontended by trivial. rewrite Hn.
  eexists. exists (length (heap sth)). split; [reflexivity | ].
  erewrite complete_open; cycle 1.
  - reflexivity.
  - cbn [heap]. rewrite lookup_app_r by reflexivity.
    now rewrite Nat.sub_diag.
  - reflexivity.
  - cbn. f_equal. f_equal.
    + rewrite delete_insert_eq. now apply delete_id.
    + rewrite insert_app_r_alt by reflexivity. now rewrite Nat.sub_diag.
Qed.

(** X8.  While a signer's handle is held, a call for that signer run on
    its own neither returns nor spins: it blocks in the receive on the
    holder's channel, however many steps it is given. *)
Theorem contended_call_blocks (fuel : nat) (nsOpID : string)
    (sth : simpleTransactionHandler) (ln : nat) (o : lockedNonce) :
  mux sth = false ->
  lockedNonces sth !! signer o = Some ln ->
  heap sth !! ln = Some o ->
  unlocked o = ChanOpen ->
  assignAndLockNonce (S (S fuel)) toolkit nonceStateTimeout now nsOpID
    (signer o) sth = Blocks.
Proof.
  intros Hm Hmap Ho Hc.
  destruct (held_excludes toolkit nonceStateTimeout now nsOpID sth ln o
              Hm Hmap Ho Hc) as [H1 H2].
  unfold assignAndLockNonce.
  change (assignAndLockNonce_from (S (S fuel)) toolkit nonceStateTimeout now
            nsOpID (signer o) sth LoopHead)
    with (match assignAndLockNonce_step toolkit nonceStateTimeout now
                  nsOpID (signer o) sth LoopHead with
          | Returns (sth', p') =>
            assignAndLockNonce_from (S fuel) toolkit nonceStateTimeout now
              nsOpID (signer o) sth' p'
          | Panics (sth', _) => Panics (sth', Err "panic")
          | Blocks => Blocks
          | OutOfFuel => OutOfFuel
          end).
  rewrite H1.
  change (assignAndLockNonce_from (S fuel) toolkit nonceStateTimeout now
            nsOpID (signer o) sth (AwaitUnlocked ln))
    with (match assignAndLockNonce_step toolkit nonceStateTimeout now
                  nsOpID (signer o) sth (AwaitUnlocked ln) with
          | Returns (sth', p') =>
            assignAndLockNonce_from fuel toolkit nonceStateTimeout now
              nsOpID (signer o) sth' p'
          | Panics (sth', _) => Panics (sth', Err "panic")
          | Blocks => Blocks
          | OutOfFuel => OutOfFuel
          end).
  now rewrite H2.
Qed.

End LockUse.

Lemma assignAndLockNonce_returns_handle_witness :
  exists sth',
    Nonces.assignAndLockNonce 3 Scenarios.fresh_toolkit Scenarios.hour 100
      "ns1/op1" "0xaaaaa" Scenarios.idle = Nonces.Returns (sth', Ok 0%nat)
    /\ Nonces.heap sth' !! 0%nat
       = Some (Nonces.mkLockedNonce "ns1/op1" "0xaaaaa" Nonces.ChanOpen 100 None).
Proof.
  destruct (assignAndLockNonce_returns_handle Scenarios.fresh_toolkit
              Scenarios.hour 100 "ns1/op1" "0xaaaaa" Scenarios.idle 100
              eq_refl eq_refl eq_refl) as (sth' & Hrun & _ & _ & Hh & _).
  exists sth'. split; [exact Hrun | exact Hh].
Defined.

Lemma assign_complete_round_trip_witness :
  exists sth1 ln,
    Nonces.assignAndLockNonce 3 Scenarios.fresh_toolkit Scenarios.hour 100
      "ns1/op1" "0xaaaaa" Scenarios.idle = Nonces.Returns (sth1, Ok ln)
    /\ Nonces.complete sth1 ln
       = Nonces.Returns
           (Nonces.mkHandler false ∅
              [Nonces.mkLockedNonce "ns1/op1" "0xaaaaa" Nonces.ChanClosed 100
                 None]).
Proof.
  exact (assign_complete_round_trip Scenarios.fresh_toolkit Scenarios.hour 100
           "ns1/op1" "0xaaaaa" Scenarios.idle 100 eq_refl eq_refl eq_refl).
Defined.

Lemma contended_call_blocks_witness :
  Nonces.assignAndLockNonce 2 Scenarios.fresh_toolkit Scenarios.hour 100
    "ns1/op2" "0xaaaaa" Scenarios.held = Nonces.Blocks.
Proof.
  exact (contended_call_blocks Scenarios.fresh_toolkit Scenarios.hour 100
           0 "ns1/op2" Scenarios.held 0
           (Nonces.mkLockedNonce "ns1/op1" "0xaaaaa" Nonces.ChanOpen 100 None)
           eq_refl eq_refl eq_refl eq_refl).
Defined.

Section LockFrame.

Import Nonces.

(** X9.  A [complete] that returns removes the entry of the handle's
    signer and closes the handle's channel, and touches nothing else: the
    entries of the other signers, the other handles and the fields of the
    handle itself are as they were. *)
Theorem complete_frame (sth sth' : simpleTransactionHandler) (ln : nat) :
  complete sth ln = Returns sth' ->
  exists o,
    heap sth !! ln = Some o
    /\ heap sth' !! ln = Some (close_unlocked o)
    /\ lockedNonces sth' !! signer o = None
    /\ (forall s, s <> signer o ->
                  lockedNonces sth' !! s = lockedNonces sth !! s)
    /\ (forall l, l <> ln -> heap sth' !! l = heap sth !! l)
    /\ length (heap sth') = length (heap sth).
Proof.
  intros H. apply complete_returns_inv in H as (o & _ & Ho & _ & ->).
  exists o. cbn [lockedNonces heap]. split; [exact Ho | ].
  split; [apply list_lookup_insert_eq; now apply lookup_lt_Some in Ho | ].
  split; [apply lookup_delete_eq | ].
  split; [intros s Hs; now rewrite lookup_delete_ne | ].
  split; [intros l Hl; now rewrite list_lookup_insert_ne | ].
  apply length_insert.
Qed.

(** X10.  [complete] releases the mutex without [defer]: when it panics on
    an allocated handle, the mutex stays held, so that from then on every
    call of [assignAndLockNonce], for any signer, blocks at the head of the
    loop, and so does every [complete]. *)
Theorem panic_keeps_mutex (sth sth' : simpleTransactionHandler) (ln : nat)
    (o : lockedNonce) :
  heap sth !! ln = Some o ->
  complete sth ln = Panics sth' ->
  mux sth' = true
  /\ (forall toolkit nonceStateTimeout now nsOpID signer fuel,
        assignAndLockNonce (S fuel) toolkit nonceStateTimeout now nsOpID
          signer sth' = Blocks)
  /\ (forall l, (l < length (heap sth'))%nat -> complete sth' l = Blocks).
Proof.
  intros Ho. unfold complete at 1. rewrite Ho.
  destruct (mux sth); [discriminate | ].
  destruct (unlocked o); [discriminate | ].
  intros [= <-]. split; [reflexivity | ]. split.
  - reflexivity.
  - intros l Hl. unfold complete. cbn [heap mux] in *.
    destruct (lookup_lt_is_Some_2 _ _ Hl) as [o' ->]. reflexivity.
Qed.

(** X11.  Handles are not reused: whatever steps are taken, an allocated
    handle stays at its address with its request id and its signer, and a
    channel that has been closed stays closed. *)
Theorem handles_persist (sth sth' : simpleTransactionHandler) (l : nat)
    (o : lockedNonce) :
  rtc handler_step sth sth' ->
  heap sth !! l = Some o ->
  exists o',
    heap sth' !! l = Some o'
    /\ nsOpID o' = nsOpID o /\ signer o' = signer o
    /\ (unlocked o = ChanClosed -> unlocked o' = ChanClosed).
Proof.
  intros Hsteps. revert o.
  induction Hsteps as [sth | sth sth1 sth2 Hstep _ IH]; intros o Ho.
  { exists o. auto. }
  assert (H1 : exists o1, heap sth1 !! l = Some o1
                          /\ nsOpID o1 = nsOpID o /\ signer o1 = signer o
                          /\ (unlocked o = ChanClosed -> unlocked o1 = ChanClosed)).
  { assert (Hins : forall k ok f,
              heap sth !! k = Some ok ->
              nsOpID (f ok) = nsOpID ok -> signer (f ok) = signer ok ->
              (unlocked ok = ChanClosed -> unlocked (f ok) = ChanClosed) ->
              exists o1, <[k := f ok]> (heap sth) !! l = Some o1
                         /\ nsOpID o1 = nsOpID o /\ signer o1 = signer o
                         /\ (unlocked o = ChanClosed -> unlocked o1 = ChanClosed)).
    { intros k ok f Hk Hid Hsg Hcl. destruct (decide (k = l)) as [->|Hne].
      - rewrite Ho in Hk. injection Hk as <-. exists (f o).
        now rewrite list_lookup_insert_eq by (now apply lookup_lt_Some in Ho).
      - exists o. now rewrite list_lookup_insert_ne. }
    destruct Hstep as [tk t now id sg p p' H | k H].
    - destruct p as [ | locked | locked | locked e | r]; cbn in H.
      + destruct (mux sth); [discriminate | ].
        destruct (lockedNonces sth !! sg); injection H as <- <-.
        * exists o. auto.
        * exists o. cbn [heap].
          now rewrite lookup_app_l by (now apply lookup_lt_Some in Ho).
      + destruct (receive_unlocked sth locked); [ | discriminate].
        injection H as <- <-. exists o. auto.
      + destruct (snd (calcNextNonce tk t now sg)) as [n|].
        * destruct (heap sth !! locked) as [o1|] eqn:Ho1; [ | discriminate].
          injection H as <- <-. cbn [heap].
          now apply (Hins locked o1 (fun x => set_nonce x n)).
        * injection H as <- <-. exists o. auto.
      + destruct (complete sth locked) as [sth0 | | | ] eqn:Hcomp;
          try discriminate.
        injection H as <- <-.
        apply complete_returns_inv in Hcomp as (o1 & _ & Ho1 & _ & ->).
        cbn [heap]. now apply (Hins locked o1 close_unlocked).
      + discriminate.
    - apply complete_returns_inv in H as (o1 & _ & Ho1 & _ & ->).
      cbn [heap]. now apply (Hins k o1 close_unlocked). }
  destruct H1 as (o1 & Ho1 & Hid1 & Hs1 & Hc1).
  destruct (IH o1 Ho1) as (o2 & Ho2 & Hid2 & Hs2 & Hc2).
  exists o2. split; [exact Ho2 | ]. repeat split; try congruence. auto.
Qed.

End LockFrame.

Lemma complete_frame_witness :
  exists o,
    Nonces.heap Scenarios.held_again !! 1%nat = Some o
    /\ Nonces.signer o = "0xaaaaa".
Proof.
  destruct (complete_frame Scenarios.held_again _ 1 eq_refl)
    as (o & Ho & _).
  exists o. split; [exact Ho | ]. now injection Ho as <-.
Defined.

Lemma panic_keeps_mutex_witness :
  Nonces.assignAndLockNonce 1 Scenarios.fresh_toolkit Scenarios.hour 100
    "ns1/op3" "0xbbbbb"
    (Nonces.mkHandler true ∅ (Nonces.heap Scenarios.held_again))
  = Nonces.Blocks.
Proof.
  destruct (panic_keeps_mutex Scenarios.held_again _ 0 _ eq_refl eq_refl)
    as (_ & Hcall & _).
  apply Hcall.
Defined.

Lemma handles_persist_witness :
  exists o',
    Nonces.heap Scenarios.held_again !! 0%nat = Some o'
    /\ Nonces.nsOpID o' = "ns1/op1".
Proof.
  assert (Hsteps : rtc Nonces.handler_step Scenarios.held Scenarios.held_again).
  { eapply rtc_l; [apply (Nonces.step_complete _ _ 0%nat); reflexivity | ].
    apply rtc_once.
    apply (Nonces.step_assign _ _ Scenarios.fresh_toolkit Scenarios.hour 100
             "ns1/op2" "0xaaaaa" Nonces.LoopHead (Nonces.DoLookup 1)).
    reflexivity. }
  destruct (handles_persist Scenarios.held Scenarios.held_again 0 _ Hsteps
              eq_refl) as (o' & Ho' & Hid & _).
  exists o'. split; [exact Ho' | exact Hid].
Defined.

(** ** The lock under any interleaving *)

Section LockProtocol.

Import Nonces.

Lemma lock_protocol_update (sth sth' : simpleTransactionHandler)
    (gs : list goroutine) (i : nat) (g g' : goroutine) :
  lock_protocol (sth, gs) ->
  lock_invariant (sth', <[i := g']> gs) ->
  gs !! i = Some g ->
  g_signer g' = g_signer g ->
  (forall s l, lockedNonces sth' !! s = Some l ->
     (holding g' = Some l /\ g_signer g = s)
     \/ (lockedNonces sth !! s = Some l
         /\ (holding g = Some l -> holding g' = Some l))) ->
  (forall l, waiting g' = Some l ->
     exists o, heap sth' !! l = Some o
               /\ (unlocked o = ChanClosed
                   \/ exists j h, j <> i /\ gs !! j = Some h
                                  /\ holding h = Some l)) ->
  (forall l o, heap sth !! l = Some o ->
     exists o', heap sth' !! l = Some o'
                /\ (unlocked o = ChanClosed -> unlocked o' = ChanClosed)
                /\ (holding g = Some l ->
                    holding g' = Some l \/ unlocked o' = ChanClosed)) ->
  lock_protocol (sth', <[i := g']> gs).
Proof.
  intros (_ & Hent & Hwait) Hinv Hi Hs HA HB HC.
  assert (Hlt : (i < length gs)%nat) by (now apply lookup_lt_Some in Hi).
  assert (Hkeep : forall j h l,
            gs !! j = Some h -> holding h = Some l ->
            (j = i -> holding g' = Some l) ->
            exists j' h', <[i := g']> gs !! j' = Some h'
                          /\ holding h' = Some l /\ g_signer h' = g_signer h).
  { intros j h l Hj Hh Hsame. destruct (decide (j = i)) as [->|Hne].
    - exists i, g'. rewrite list_lookup_insert_eq by trivial.
      rewrite Hi in Hj. injection Hj as <-. auto.
    - exists j, h. now rewrite list_lookup_insert_ne by auto. }
  split; [exact Hinv | ]. split.
  - intros s l Hmap.
    destruct (HA s l Hmap) as [[Hh <-] | [Hold Hsame]].
    + exists i, g'. now rewrite list_lookup_insert_eq by trivial.
    + destruct (Hent s l Hold) as (j & h & Hj & Hh & <-).
      destruct (Hkeep j h l Hj Hh) as (j' & h' & Hj' & Hh' & Hs').
      * intros ->. rewrite Hi in Hj. injection Hj as <-. auto.
      * now exists j', h'.
  - intros k h l Hk Hw.
    apply list_lookup_insert_Some in Hk as [(<- & <- & _) | (Hne & Hk)].
    + destruct (HB l Hw) as (o & Ho & [Hc | (j & h & Hne & Hj & Hh)]).
      * exists o. auto.
      * exists o. split; [exact Ho | ]. right. exists j, h.
        now rewrite list_lookup_insert_ne by auto.
    + destruct (Hwait k h l Hk Hw) as (o & Ho & Hd).
      destruct (HC l o Ho) as (o' & Ho' & Hcl & Hmove).
      exists o'. split; [exact Ho' | ].
      destruct Hd as [Hc | (j & h' & Hj & Hh)]; [auto | ].
      destruct (decide (j = i)) as [->|Hji].
      * rewrite Hi in Hj. injection Hj as <-.
        destruct (Hmove Hh) as [Hh' | Hc]; [ | auto].
        right. exists i, g'. now rewrite list_lookup_insert_eq by trivial.
      * right. exists j, h'. now rewrite list_lookup_insert_ne by auto.
Qed.

Lemma lock_protocol_step
    (sys sys' : simpleTransactionHandler * list goroutine) :
  lock_protocol sys -> system_step sys sys' -> lock_protocol sys'.
Proof.
  intros Hp Hstep.
  assert (Hinv' : lock_invariant sys').
  { destruct sys as [sth gs]. destruct Hp as [Hinv _].
    now apply (lock_invariant_step (sth, gs)). }
  destruct Hstep as
    [sth gs i g tk t now sth' p' Hi Hc Hstep | sth gs i g l sth' Hi Hc Hpc Hcomp].
  - pose proof Hp as ((Hm & Hheld & Huniq) & Hent & Hwait).
    destruct (g_pc g) as [ | locked | locked | locked e | r] eqn:Hpc;
      cbn [assignAndLockNonce_step] in Hstep.
    + (* loop head *)
      assert (Hg : holding g = None)
        by (unfold holding; rewrite Hpc; now destruct (g_completed g)).
      rewrite Hm in Hstep.
      destruct (lockedNonces sth !! g_signer g) as [locked|] eqn:Hmap;
        injection Hstep as <- <-.
      * apply (lock_protocol_update sth sth gs i g); trivial.
        -- intros s l Hsl. right. split; [exact Hsl | ].
           rewrite Hg. discriminate.
        -- unfold waiting. cbn. intros l [= <-].
           destruct (Hent _ _ Hmap) as (j & h & Hj & Hh & Hs).
           destruct (Hheld j h locked Hj Hh) as (_ & o & Ho & _).
           exists o. split; [exact Ho | ]. right. exists j, h.
           split; [ | auto]. intros ->. rewrite Hi in Hj.
           injection Hj as <-. rewrite Hg in Hh. discriminate.
        -- intros l o Ho. exists o. split; [exact Ho | ].
           split; [auto | ]. rewrite Hg. discriminate.
      * apply (lock_protocol_update sth _ gs i g); trivial.
        -- cbn [lockedNonces]. intros s l Hsl.
           apply lookup_insert_Some in Hsl as [[<- <-] | [Hne Hsl]].
           ++ left. now split.
           ++ right. split; [exact Hsl | ]. rewrite Hg. discriminate.
        -- unfold waiting. cbn. discriminate.
        -- cbn [heap]. intros l o Ho. exists o.
           rewrite lookup_app_l by (now apply lookup_lt_Some in Ho).
           split; [exact Ho | ]. split; [auto | ].
           rewrite Hg. discriminate.
    + (* waiting *)
      assert (Hg : holding g = None)
        by (unfold holding; rewrite Hpc; now destruct (g_completed g)).
      destruct (receive_unlocked sth locked); [ | discriminate].
      injection Hstep as <- <-.
      apply (lock_protocol_update sth sth gs i g); trivial.
      * intros s l Hsl. right. split; [exact Hsl | ].
        rewrite Hg. discriminate.
      * unfold waiting. cbn. discriminate.
      * intros l o Ho. exists o. split; [exact Ho | ].
        split; [auto | ]. rewrite Hg. discriminate.
    + (* lookup *)
      assert (Hg : holding g = Some locked)
        by (unfold holding; now rewrite Hc, Hpc).
      destruct (Hheld i g locked Hi Hg) as (Hmapi & o & Ho & Hso & Hopen).
      destruct (snd (calcNextNonce tk t now (g_signer g))) as [n|e].
      * rewrite Ho in Hstep. injection Hstep as <- <-.
        apply (lock_protocol_update sth _ gs i g); trivial.
        -- cbn [lockedNonces]. intros s l Hsl. right.
           split; [exact Hsl | ]. rewrite Hg. now intros [= <-].
        -- unfold waiting. cbn. discriminate.
        -- cbn [heap]. intros l o1 Ho1.
           destruct (decide (l = locked)) as [->|Hne].
           ++ exists (set_nonce o n).
              rewrite list_lookup_insert_eq
                by (now apply lookup_lt_Some in Ho).
              rewrite Ho in Ho1. injection Ho1 as <-.
              split; [reflexivity | ]. split; [auto | ]. now left.
           ++ exists o1. rewrite list_lookup_insert_ne by auto.
              split; [exact Ho1 | ]. split; [auto | ].
              rewrite Hg. intros [= <-]. now destruct Hne.
      * injection Hstep as <- <-.
        apply (lock_protocol_update sth sth gs i g); trivial.
        -- intros s l Hsl. right. split; [exact Hsl | ].
           rewrite Hg. now intros [= <-].
        -- unfold waiting. cbn. discriminate.
        -- intros l o1 Ho1. exists o1. split; [exact Ho1 | ].
           split; [auto | ]. rewrite Hg. intros [= <-]. now left.
    + (* completing on failure *)
      assert (Hg : holding g = Some locked)
        by (unfold holding; now rewrite Hc, Hpc).
      destruct (Hheld i g locked Hi Hg) as (Hmapi & o & Ho & Hso & Hopen).
      rewrite (complete_open sth locked o Hm Ho Hopen) in Hstep.
      injection Hstep as <- <-.
      apply (lock_protocol_update sth _ gs i g); trivial.
      * cbn [lockedNonces]. intros s l Hsl.
        apply lookup_delete_Some in Hsl as [Hne Hsl].
        right. split; [exact Hsl | ]. rewrite Hg. intros [= <-].
        destruct (Hent s locked Hsl) as (j & h & Hj & Hh & Hs).
        rewrite (Huniq j i h g locked Hj Hi Hh Hg) in Hj.
        rewrite Hi in Hj. injection Hj as <-. congruence.
      * unfold waiting. cbn. discriminate.
      * cbn [heap]. intros l o1 Ho1.
        destruct (decide (l = locked)) as [->|Hne].
        -- exists (close_unlocked o).
           rewrite list_lookup_insert_eq by (now apply lookup_lt_Some in Ho).
           split; [reflexivity | ]. split; [auto | ]. now right.
        -- exists o1. rewrite list_lookup_insert_ne by auto.
           split; [exact Ho1 | ]. split; [auto | ].
           rewrite Hg. intros [= <-]. now destruct Hne.
    + discriminate.
  - pose proof Hp as ((Hm & Hheld & Huniq) & Hent & Hwait).
    assert (Hg : holding g = Some l) by (unfold holding; now rewrite Hc, Hpc).
    destruct (Hheld i g l Hi Hg) as (Hmapi & o & Ho & Hso & Hopen).
    rewrite (complete_open sth l o Hm Ho Hopen) in Hcomp.
    injection Hcomp as <-.
    apply (lock_protocol_update sth _ gs i g); trivial.
    + cbn [lockedNonces]. intros s l' Hsl.
      apply lookup_delete_Some in Hsl as [Hne Hsl].
      right. split; [exact Hsl | ]. rewrite Hg. intros [= <-].
      destruct (Hent s l Hsl) as (j & h & Hj & Hh & Hs).
      rewrite (Huniq j i h g l Hj Hi Hh Hg) in Hj.
      rewrite Hi in Hj. injection Hj as <-. congruence.
    + unfold waiting. cbn. discriminate.
    + cbn [heap]. intros l' o1 Ho1.
      destruct (decide (l' = l)) as [->|Hne].
      * exists (close_unlocked o).
        rewrite list_lookup_insert_eq by (now apply lookup_lt_Some in Ho).
        split; [reflexivity | ]. split; [auto | ]. now right.
      * exists o1. rewrite list_lookup_insert_ne by auto.
        split; [exact Ho1 | ]. split; [auto | ].
        rewrite Hg. intros [= <-]. now destruct Hne.
Qed.

Lemma lock_protocol_steps
    (sys sys' : simpleTransactionHandler * list goroutine) :
  lock_protocol sys -> rtc system_step sys sys' -> lock_protocol sys'.
Proof.
  intros Hinv Hsteps. induction Hsteps as [ | x y z Hxy _ IH]; [exact Hinv | ].
  apply IH. now apply (lock_protocol_step x).
Qed.

Lemma lock_protocol_init (gs : list goroutine) :
  Forall (fun g => g_pc g = LoopHead) gs ->
  lock_protocol (mkHandler false ∅ [], gs).
Proof.
  intros Hinit. split; [now apply lock_invariant_init | ]. split.
  - intros s l. cbn. now rewrite lookup_empty.
  - intros i g l Hi. rewrite Forall_forall in Hinit.
    unfold waiting. rewrite (Hinit g) by (now apply list_elem_of_lookup_2 in Hi).
    now destruct (g_completed g).
Qed.

End LockProtocol.

Section LockExtras.

Import Nonces.

Lemma holder_steps (sth : simpleTransactionHandler) (gs : list goroutine)
    (j : nat) (h : goroutine) (l : nat) :
  lock_invariant (sth, gs) ->
  gs !! j = Some h -> holding h = Some l ->
  exists sys', system_step (sth, gs) sys'.
Proof.
  intros (Hm & Hheld & _) Hj Hh.
  destruct (Hheld j h l Hj Hh) as (_ & o & Ho & _ & Hopen).
  unfold holding in Hh.
  destruct (g_completed h) eqn:Hc; [discriminate | ].
  pose (tk := mkToolkit (fun _ _ _ _ => Err "") (fun _ => Err "")).
  destruct (g_pc h) as [ | locked | locked | locked e | [locked|e]] eqn:Hpc;
    try discriminate; injection Hh as ->.
  - eexists. apply (system_call sth gs j h tk 0 0); [exact Hj | exact Hc | ].
    rewrite Hpc. reflexivity.
  - eexists. apply (system_call sth gs j h tk 0 0); [exact Hj | exact Hc | ].
    rewrite Hpc. cbn [assignAndLockNonce_step].
    now rewrite (complete_open sth l o Hm Ho Hopen).
  - eexists. apply (system_complete sth gs j h l); trivial.
    exact (complete_open sth l o Hm Ho Hopen).
Qed.

(** X15.  The lock does not deadlock: in every state the goroutines can
    reach, as long as one of them is not finished some goroutine can take a
    step. *)
Theorem no_deadlock (gs0 gs : list goroutine)
    (sth : simpleTransactionHandler) (i : nat) (g : goroutine) :
  Forall (fun g => g_pc g = LoopHead) gs0 ->
  rtc system_step (mkHandler false ∅ [], gs0) (sth, gs) ->
  gs !! i = Some g -> finished g = false ->
  exists sys', system_step (sth, gs) sys'.
Proof.
  intros Hinit Hsteps Hi Hfin.
  destruct (lock_protocol_steps _ _ (lock_protocol_init gs0 Hinit) Hsteps)
    as (Hinv & _ & Hwait).
  unfold finished in Hfin. apply orb_false_iff in Hfin as [Hc Hfin].
  pose (tk := mkToolkit (fun _ _ _ _ => Err "") (fun _ => Err "")).
  destruct (g_pc g) as [ | locked | locked | locked e | [locked|e]] eqn:Hpc;
    try discriminate.
  - destruct Hinv as (Hm & _).
    destruct (lockedNonces sth !! g_signer g) as [locked|] eqn:Hmap.
    + eexists. apply (system_call sth gs i g tk 0 0); [exact Hi | exact Hc | ].
      rewrite Hpc. cbn [assignAndLockNonce_step]. now rewrite Hm, Hmap.
    + eexists. apply (system_call sth gs i g tk 0 0); [exact Hi | exact Hc | ].
      rewrite Hpc. cbn [assignAndLockNonce_step]. now rewrite Hm, Hmap.
  - destruct (Hwait i g locked Hi) as (o & Ho & [Hcl | (j & h & Hj & Hh)]).
    + unfold waiting. now rewrite Hc, Hpc.
    + eexists. apply (system_call sth gs i g tk 0 0); [exact Hi | exact Hc | ].
      rewrite Hpc. cbn [assignAndLockNonce_step].
      now rewrite (receive_unlocked_closed sth locked o Ho Hcl).
    + now apply (holder_steps sth gs j h locked).
  - apply (holder_steps sth gs i g locked); trivial.
    unfold holding. now rewrite Hc, Hpc.
  - apply (holder_steps sth gs i g locked); trivial.
    unfold holding. now rewrite Hc, Hpc.
  - apply (holder_steps sth gs i g locked); trivial.
    unfold holding. now rewrite Hc, Hpc.
Qed.

(** X14.  No entry is left behind: in every state the goroutines can
    reach, each entry of the map of locked nonces is the open handle of a
    goroutine that holds it, for that signer, and has still to complete
    it. *)
Theorem no_leaked_entry (gs0 gs : list goroutine)
    (sth : simpleTransactionHandler) (s : string) (l : nat) :
  Forall (fun g => g_pc g = LoopHead) gs0 ->
  rtc system_step (mkHandler false ∅ [], gs0) (sth, gs) ->
  lockedNonces sth !! s = Some l ->
  exists j h o,
    gs !! j = Some h /\ holding h = Some l /\ g_signer h = s
    /\ heap sth !! l = Some o /\ signer o = s /\ unlocked o = ChanOpen.
Proof.
  intros Hinit Hsteps Hmap.
  destruct (lock_protocol_steps _ _ (lock_protocol_init gs0 Hinit) Hsteps)
    as ((_ & Hheld & _) & Hent & _).
  destruct (Hent s l Hmap) as (j & h & Hj & Hh & Hs).
  destruct (Hheld j h l Hj Hh) as (_ & o & Ho & Hso & Hopen).
  exists j, h, o. repeat split; trivial. congruence.
Qed.

(** X13.  Used as the comment on [complete] asks, the lock does not panic:
    in every state the goroutines can reach, the handle a goroutine holds
    is its signer's entry, and completing it returns, frees the signer and
    lets every receive on the handle's channel through. *)
Theorem holder_completes (gs0 gs : list goroutine)
    (sth : simpleTransactionHandler) (i : nat) (g : goroutine) (l : nat) :
  Forall (fun g => g_pc g = LoopHead) gs0 ->
  rtc system_step (mkHandler false ∅ [], gs0) (sth, gs) ->
  gs !! i = Some g -> holding g = Some l ->
  lockedNonces sth !! g_signer g = Some l
  /\ exists sth',
       complete sth l = Returns sth'
       /\ lockedNonces sth' !! g_signer g = None
       /\ receive_unlocked sth' l = true.
Proof.
  intros Hinit Hsteps Hi Hh.
  destruct (lock_invariant_steps _ _ (lock_invariant_init gs0 Hinit) Hsteps)
    as (Hm & Hheld & _).
  destruct (Hheld i g l Hi Hh) as (Hmap & o & Ho & Hso & Hopen).
  split; [exact Hmap | ].
  eexists. split; [exact (complete_open sth l o Hm Ho Hopen) | ].
  cbn [lockedNonces]. split; [rewrite Hso; apply lookup_delete_eq | ].
  unfold receive_unlocked. cbn [heap].
  now rewrite list_lookup_insert_eq by (now apply lookup_lt_Some in Ho).
Qed.

End LockExtras.

Section HeldNonce.

Import Nonces.

(** X16.  The nonce in a returned handle is the holder's: between the
    return of the call and the holder's own [complete], no step of another
    goroutine changes it. *)
Theorem held_nonce_stable (gs0 gs gs' : list goroutine)
    (sth sth' : simpleTransactionHandler) (i : nat) (g : goroutine) (l : nat) :
  Forall (fun g => g_pc g = LoopHead) gs0 ->
  rtc system_step (mkHandler false ∅ [], gs0) (sth, gs) ->
  system_step (sth, gs) (sth', gs') ->
  gs !! i = Some g -> gs' !! i = Some g ->
  g_pc g = Returned (Ok l) -> g_completed g = false ->
  exists n, heap_nonce sth l = Some n /\ heap_nonce sth' l = Some n.
Proof.
  intros Hinit Hsteps Hstep Hi Hi' Hpc Hc.
  destruct (lock_invariant_steps _ _ (lock_invariant_init gs0 Hinit) Hsteps)
    as (Hm & Hheld & Huniq).
  assert (Hg : holding g = Some l) by (unfold holding; now rewrite Hc, Hpc).
  destruct (Hheld i g l Hi Hg) as (_ & o & Ho & _).
  exists (nonce o). unfold heap_nonce. rewrite Ho. split; [reflexivity | ].
  inversion Hstep as
    [sth0 gs1 j h tk t now sth1 p' Hj Hcj Hs | sth0 gs1 j h lj sth1 Hj Hcj Hpj Hcomp];
    subst.
  - destruct (decide (j = i)) as [->|Hne].
    { rewrite Hi in Hj. injection Hj as <-. rewrite Hpc in Hs. discriminate. }
    destruct (g_pc h) as [ | locked | locked | locked e | r] eqn:Hph;
      cbn [assignAndLockNonce_step] in Hs.
    + rewrite Hm in Hs.
      destruct (lockedNonces sth !! g_signer h); injection Hs as <- <-.
      * now rewrite Ho.
      * cbn [heap]. rewrite lookup_app_l by (now apply lookup_lt_Some in Ho).
        now rewrite Ho.
    + destruct (receive_unlocked sth locked); [ | discriminate].
      injection Hs as <- <-. now rewrite Ho.
    + assert (Hh : holding h = Some locked)
        by (unfold holding; now rewrite Hcj, Hph).
      destruct (snd (calcNextNonce tk t now (g_signer h))).
      * destruct (heap sth !! locked) as [o1|]; [ | discriminate].
        injection Hs as <- <-. cbn [heap].
        rewrite list_lookup_insert_ne; [now rewrite Ho | ].
        intros ->. apply Hne. now apply (Huniq j i h g l).
      * injection Hs as <- <-. now rewrite Ho.
    + destruct (complete sth locked) as [sth0 | | | ] eqn:Hcomp;
        try discriminate.
      injection Hs as <- <-.
      apply complete_returns_inv in Hcomp as (o1 & _ & Ho1 & _ & ->).
      cbn [heap]. destruct (decide (locked = l)) as [->|Hl].
      * rewrite list_lookup_insert_eq by (now apply lookup_lt_Some in Ho).
        rewrite Ho in Ho1. now injection Ho1 as <-.
      * rewrite list_lookup_insert_ne by trivial. now rewrite Ho.
    + discriminate.
  - destruct (decide (j = i)) as [->|Hne].
    { rewrite list_lookup_insert_eq in Hi' by (now apply lookup_lt_Some in Hi).
      injection Hi' as Hi'. rewrite <- Hi' in Hc. discriminate. }
    apply complete_returns_inv in Hcomp as (o1 & _ & Ho1 & _ & ->).
    cbn [heap]. destruct (decide (lj = l)) as [->|Hl].
    + rewrite list_lookup_insert_eq by (now apply lookup_lt_Some in Ho).
      rewrite Ho in Ho1. now injection Ho1 as <-.
    + rewrite list_lookup_insert_ne by trivial. now rewrite Ho.
Qed.

End HeldNonce.

Lemma two_callers_start :
  Forall (fun g => Nonces.g_pc g = Nonces.LoopHead) Scenarios.two_callers.
Proof.
  repeat constructor.
Qed.

Lemma two_callers_contended :
  rtc Nonces.system_step (Scenarios.idle, Scenarios.two_callers)
    Scenarios.contended.
Proof.
  eapply rtc_l.
  { eapply (Nonces.system_call _ _ 0%nat _ Scenarios.fresh_toolkit
              Scenarios.hour 5); reflexivity. }
  eapply rtc_l.
  { eapply (Nonces.system_call _ _ 1%nat _ Scenarios.fresh_toolkit
              Scenarios.hour 5); reflexivity. }
  eapply rtc_l.
  { eapply (Nonces.system_call _ _ 0%nat _ Scenarios.fresh_toolkit
              Scenarios.hour 5); reflexivity. }
  cbn. apply rtc_refl.
Qed.

Lemma two_signers_first_served :
  rtc Nonces.system_step (Scenarios.idle, Scenarios.two_signers)
    Scenarios.first_served.
Proof.
  eapply rtc_l.
  { eapply (Nonces.system_call _ _ 0%nat _ Scenarios.fresh_toolkit
              Scenarios.hour 5); reflexivity. }
  eapply rtc_l.
  { eapply (Nonces.system_call _ _ 0%nat _ Scenarios.fresh_toolkit
              Scenarios.hour 5); reflexivity. }
  cbn. apply rtc_refl.
Qed.

Lemma mutual_exclusion_witness :
  Nonces.holding
    (Nonces.mkGoroutine "ns1/a" "0xaaaaa" (Nonces.Returned (Ok 0%nat)) false)
  = Some 0%nat
  /\ 0%nat = 0%nat.
Proof.
  split; [reflexivity | ].
  exact (mutual_exclusion Scenarios.two_callers (snd Scenarios.contended)
           (fst Scenarios.contended) two_callers_start two_callers_contended
           0%nat 0%nat _ _ 0%nat 0%nat
           eq_refl eq_refl eq_refl eq_refl eq_refl).
Defined.

Lemma holder_completes_witness :
  exists sth',
    Nonces.complete (fst Scenarios.contended) 0 = Nonces.Returns sth'
    /\ Nonces.receive_unlocked sth' 0 = true.
Proof.
  destruct (holder_completes Scenarios.two_callers (snd Scenarios.contended)
              (fst Scenarios.contended) 0%nat _ 0%nat two_callers_start
              two_callers_contended eq_refl eq_refl)
    as (_ & sth' & Hc & _ & Hr).
  exists sth'. split; [exact Hc | exact Hr].
Defined.

Lemma no_leaked_entry_witness :
  exists j h,
    snd Scenarios.contended !! j = Some h /\ Nonces.holding h = Some 0%nat.
Proof.
  destruct (no_leaked_entry Scenarios.two_callers (snd Scenarios.contended)
              (fst Scenarios.contended) "0xaaaaa" 0%nat two_callers_start
              two_callers_contended eq_refl)
    as (j & h & _ & Hj & Hh & _).
  exists j, h. split; [exact Hj | exact Hh].
Defined.

Lemma no_deadlock_witness :
  exists sys', Nonces.system_step Scenarios.contended sys'.
Proof.
  exact (no_deadlock Scenarios.two_callers (snd Scenarios.contended)
           (fst Scenarios.contended) 1%nat _ two_callers_start
           two_callers_contended eq_refl eq_refl).
Defined.

Lemma held_nonce_stable_witness :
  exists n,
    Nonces.heap_nonce (fst Scenarios.first_served) 0 = Some n
    /\ Nonces.heap_nonce (fst Scenarios.both_served) 0 = Some n.
Proof.
  assert (Hstart : Forall (fun g => Nonces.g_pc g = Nonces.LoopHead)
                     Scenarios.two_signers) by (repeat constructor).
  assert (Hstep : Nonces.system_step Scenarios.first_served
                    Scenarios.both_served).
  { apply (Nonces.system_call (fst Scenarios.first_served)
             (snd Scenarios.first_served) 1%nat
             (Nonces.mkGoroutine "ns1/c" "0xbbbbb" Nonces.LoopHead false)
             Scenarios.fresh_toolkit Scenarios.hour 6); reflexivity. }
  exact (held_nonce_stable Scenarios.two_signers _ _ _ _ 0%nat _ 0%nat
           Hstart two_signers_first_served Hstep
           eq_refl eq_refl eq_refl eq_refl).
Defined.

(** ** Configuration defaults *)

Section Defaults.

Import Config.

(** X17.  Every key the package registers is given exactly one default by
    [setDefaults], keys being compared as viper compares them, with two
    exceptions that [setDefaults] gives none: [persistence.leveldb.path]
    and [transactions.handler.name].  No default is set for a key that is
    not registered. *)
Theorem setDefaults_root_keys :
  (forall k, k ∈ rootKeys ->
     length (defaults_of k)
     = if bool_decide (k = PersistenceLevelDBPath
                       \/ k = TransactionHandlerName)
       then 0%nat else 1%nat)
  /\ (forall c, c ∈ setDefaults -> call_key c ∈ rootKeys).
Proof.
  split.
  - apply Forall_forall. repeat (constructor; [vm_compute; reflexivity | ]).
    constructor.
  - apply Forall_forall.
    repeat (constructor;
            [cbn [call_key]; unfold rootKeys;
             repeat first [apply list_elem_of_here | apply list_elem_of_further]
            | ]).
    constructor.
Qed.

End Defaults.

Lemma setDefaults_root_keys_witness :
  length (Config.defaults_of Config.PersistenceLevelDBPath) = 0%nat
  /\ length (Config.defaults_of Config.TransactionsMaxHistoryCount) = 1%nat.
Proof.
  destruct setDefaults_root_keys as [H _]. split.
  - apply (H Config.PersistenceLevelDBPath).
    unfold Config.rootKeys.
    repeat first [apply list_elem_of_here | apply list_elem_of_further].
  - apply (H Config.TransactionsMaxHistoryCount).
    unfold Config.rootKeys.
    repeat first [apply list_elem_of_here | apply list_elem_of_further].
Defined.

(** ** The history tracker *)

Section History.

Import TxHistory.

Variable maxHistoryCount : Z.

Lemma History_SetSubStatus (now : Z) (mtx : ManagedTX) (s : string) :
  History (SetSubStatus maxHistoryCount now mtx s)
  = if maxHistoryCount =? 0 then History mtx
    else if bool_decide (HE.Status <$> last (History mtx) = Some s)
    then History mtx
    else evict maxHistoryCount (History mtx ++ [new_entry now s]).
Proof.
  unfold SetSubStatus, CurrentSubStatus.
  destruct (maxHistoryCount =? 0); [reflexivity | ].
  now destruct (bool_decide _).
Qed.

Lemma last_evict_snoc (h : list HE.t) (e : HE.t) :
  last (evict maxHistoryCount (h ++ [e])) = Some e
  \/ (h = [] /\ maxHistoryCount < 1
      /\ evict maxHistoryCount (h ++ [e]) = []).
Proof.
  unfold evict.
  destruct (Z.ltb_spec maxHistoryCount (Z.of_nat (length (h ++ [e]))))
    as [Hlt|Hge].
  - destruct h as [ | x h]; [right; cbn in *; repeat split; lia | left].
    cbn [app tail]. apply last_snoc.
  - left. apply last_snoc.
Qed.

Lemma History_SetSubStatus_twice (now now' : Z) (mtx : ManagedTX)
    (s : string) :
  History (SetSubStatus maxHistoryCount now'
             (SetSubStatus maxHistoryCount now mtx s) s)
  = History (SetSubStatus maxHistoryCount now mtx s).
Proof.
  rewrite (History_SetSubStatus now'), (History_SetSubStatus now).
  destruct (maxHistoryCount =? 0) eqn:H0; [reflexivity | ].
  destruct (bool_decide (HE.Status <$> last (History mtx) = Some s)) eqn:Hsame.
  - now rewrite Hsame.
  - destruct (last_evict_snoc (History mtx) (new_entry now s))
      as [Hlast | (Hnil & Hmax & Hev)].
    + rewrite Hlast. cbn. now rewrite bool_decide_eq_true_2.
    + rewrite Hev. cbn [last fmap option_fmap option_map].
      rewrite bool_decide_eq_false_2 by discriminate.
      unfold evict. cbn [app length].
      destruct (Z.ltb_spec maxHistoryCount (Z.of_nat 1));
        [reflexivity | lia].
Qed.

Lemma History_SetSubStatus_congr (now : Z) (m m' : ManagedTX) (s : string) :
  History m = History m' ->
  History (SetSubStatus maxHistoryCount now m s)
  = History (SetSubStatus maxHistoryCount now m' s).
Proof. intros H. rewrite !History_SetSubStatus. now rewrite H. Qed.

Lemma History_SetSubStatuses_repeat (k : nat) :
  forall (now now' : Z) (mtx : ManagedTX) (s : string),
    History (SetSubStatuses maxHistoryCount now'
               (SetSubStatus maxHistoryCount now mtx s) (repeat s k))
    = History (SetSubStatus maxHistoryCount now mtx s).
Proof.
  induction k as [ | k IH]; intros now now' mtx s; [reflexivity | ].
  cbn [repeat SetSubStatuses].
  rewrite IH. apply History_SetSubStatus_twice.
Qed.

(** C7.  [SetSubStatus] with the status of the current tail changes
    nothing; called again and again with the same status, it leaves the
    history as the first call made it; and the history changes only when
    the status differs from the current tail, by the entry appended. *)
Theorem SetSubStatus_same_status (now : Z) (mtx : ManagedTX) (s : string) :
  (HE.Status <$> CurrentSubStatus mtx = Some s ->
   SetSubStatus maxHistoryCount now mtx s = mtx)
  /\ (forall k now',
        History (SetSubStatuses maxHistoryCount now'
                   (SetSubStatus maxHistoryCount now mtx s) (repeat s k))
        = History (SetSubStatus maxHistoryCount now mtx s))
  /\ (History (SetSubStatus maxHistoryCount now mtx s) <> History mtx ->
      HE.Status <$> CurrentSubStatus mtx <> Some s
      /\ History (SetSubStatus maxHistoryCount now mtx s)
         = evict maxHistoryCount (History mtx ++ [new_entry now s])).
Proof.
  split; [ | split].
  - intros H. unfold SetSubStatus.
    destruct (maxHistoryCount =? 0); [reflexivity | ].
    now rewrite bool_decide_eq_true_2.
  - intros k now'. apply History_SetSubStatuses_repeat.
  - rewrite History_SetSubStatus. unfold CurrentSubStatus.
    destruct (maxHistoryCount =? 0); [congruence | ].
    destruct (bool_decide_reflect
                (HE.Status <$> last (History mtx) = Some s));
      [congruence | ].
    now intros _.
Qed.

Lemma length_evict (h : list HE.t) :
  0 <= maxHistoryCount ->
  Z.of_nat (length h) <= maxHistoryCount + 1 ->
  Z.of_nat (length (evict maxHistoryCount h)) <= maxHistoryCount.
Proof.
  intros H0 Hh. unfold evict.
  destruct (Z.ltb_spec maxHistoryCount (Z.of_nat (length h))); [ | lia].
  destruct h; cbn [tail length] in *; lia.
Qed.

Lemma length_SetSubStatus (now : Z) (mtx : ManagedTX) (s : string) :
  0 <= maxHistoryCount ->
  Z.of_nat (length (History mtx)) <= maxHistoryCount ->
  Z.of_nat (length (History (SetSubStatus maxHistoryCount now mtx s)))
  <= maxHistoryCount.
Proof.
  intros H0 Hh. rewrite History_SetSubStatus.
  destruct (maxHistoryCount =? 0); [exact Hh | ].
  destruct (bool_decide _); [exact Hh | ].
  apply length_evict; [exact H0 | ].
  rewrite length_app. cbn [length]. lia.
Qed.

Lemma length_AddSubStatusAction (now : Z) (mtx : ManagedTX)
    (action : string) (info err : option string) :
  0 <= maxHistoryCount ->
  Z.of_nat (length (History mtx)) <= maxHistoryCount ->
  Z.of_nat (length (History (AddSubStatusAction maxHistoryCount now mtx
                               action info err)))
  <= maxHistoryCount.
Proof.
  intros H0 Hh. unfold AddSubStatusAction.
  destruct (maxHistoryCount =? 0); [exact Hh | ].
  set (mtx1 := match History mtx with
               | [] => SetSubStatus maxHistoryCount now mtx TxSubStatusReceived
               | _ :: _ => mtx
               end).
  assert (H1 : Z.of_nat (length (History mtx1)) <= maxHistoryCount).
  { subst mtx1. destruct (History mtx) eqn:E; [ | now rewrite E].
    apply length_SetSubStatus; [exact H0 | now rewrite E]. }
  cbn [History with_history].
  destruct (last (History mtx1)) eqn:Hlast; [ | exact H1].
  rewrite length_app, length_take. cbn [length].
  destruct (History mtx1); [discriminate | cbn [length] in *; lia].
Qed.

Lemma bump_none (hit : SE.t -> bool) (now : Z) (hs : list SE.t) :
  Forall (fun e => hit e = false) hs -> bump hit now hs = None.
Proof.
  induction 1 as [ | e hs He _ IH]; [reflexivity | ].
  cbn. now rewrite He, IH.
Qed.

Lemma holds_SetSubStatus (now : Z) (mtx : ManagedTX) (seen : list string)
    (s : string) :
  0 < maxHistoryCount ->
  holds maxHistoryCount seen mtx ->
  s ∉ seen ->
  holds maxHistoryCount (seen ++ [s]) (SetSubStatus maxHistoryCount now mtx s).
Proof.
  intros Hmax [Hh Hs] Hnew.
  set (M := Z.to_nat maxHistoryCount) in *.
  assert (HM : (0 < M)%nat) by lia.
  assert (Hlen : length (History mtx) = (length seen - (length seen - M))%nat).
  { rewrite <- (length_fmap HE.Status), Hh. apply length_drop. }
  assert (Htail : HE.Status <$> last (History mtx) <> Some s).
  { rewrite <- fmap_last, Hh. intros Hl.
    apply Hnew. apply last_Some_elem_of in Hl.
    exact (subseteq_drop _ _ _ Hl). }
  unfold SetSubStatus, CurrentSubStatus.
  destruct (Z.eqb_spec maxHistoryCount 0); [lia | ].
  rewrite bool_decide_eq_false_2 by exact Htail.
  split; cbn [History HistorySummary with_history]; fold M.
  - unfold evict. rewrite length_app. cbn [length].
    destruct (Z.ltb_spec maxHistoryCount
                (Z.of_nat (length (History mtx) + 1))) as [Hlt|Hge].
    + assert (Hfull : (M <= length seen)%nat) by lia.
      change (tail (History mtx ++ [new_entry now s]))
        with (drop 1 (History mtx ++ [new_entry now s])).
      rewrite fmap_drop, fmap_app, Hh. cbn [fmap list_fmap].
      rewrite drop_app_le by (rewrite length_drop; lia).
      rewrite drop_drop, length_app. cbn [length].
      rewrite drop_app_le by lia.
      f_equal. f_equal. lia.
    + assert (Hroom : (length seen < M)%nat) by lia.
      rewrite fmap_app, Hh. cbn [fmap list_fmap].
      rewrite length_app. cbn [length].
      replace (length seen - M)%nat with 0%nat by lia.
      replace (length seen + 1 - M)%nat with 0%nat by lia.
      reflexivity.
  - unfold summarise. rewrite bump_none.
    + rewrite fmap_app, Hs. reflexivity.
    + rewrite Forall_forall. intros e He.
      apply bool_decide_eq_false_2. intros <-.
      apply Hnew. rewrite <- Hs. now apply list_elem_of_fmap_2.
Qed.

Lemma holds_SetSubStatuses (ss : list string) :
  forall (now : Z) (mtx : ManagedTX) (seen : list string),
    0 < maxHistoryCount ->
    holds maxHistoryCount seen mtx ->
    NoDup (seen ++ ss) ->
    holds maxHistoryCount (seen ++ ss) (SetSubStatuses maxHistoryCount now mtx ss).
Proof.
  induction ss as [ | s ss IH]; intros now mtx seen Hmax Hholds Hnodup.
  - now rewrite app_nil_r.
  - cbn [SetSubStatuses].
    replace (seen ++ s :: ss) with ((seen ++ [s]) ++ ss) in *
      by now rewrite <- app_assoc.
    apply IH; [exact Hmax | | exact Hnodup].
    apply holds_SetSubStatus; [exact Hmax | exact Hholds | ].
    apply NoDup_app in Hnodup as [Hnodup _].
    apply NoDup_app in Hnodup as (_ & Hdisj & _).
    intros Hin. apply (Hdisj s Hin). apply list_elem_of_here.
Qed.

(** C3.  The history never exceeds [maxHistoryCount] entries, whichever
    of the two operations is applied; at the cap a new status evicts the
    oldest entry, first in, first out; and the summary is not capped: after
    statuses that are all distinct, the history holds the newest
    [maxHistoryCount] of them and the summary one row each, so 50 and 100
    for 100 statuses under the default cap of 50. *)
Theorem history_bounded :
  0 <= maxHistoryCount ->
  (forall now mtx s,
     Z.of_nat (length (History mtx)) <= maxHistoryCount ->
     Z.of_nat (length (History (SetSubStatus maxHistoryCount now mtx s)))
     <= maxHistoryCount)
  /\ (forall now mtx action info err,
        Z.of_nat (length (History mtx)) <= maxHistoryCount ->
        Z.of_nat (length (History (AddSubStatusAction maxHistoryCount now mtx
                                     action info err)))
        <= maxHistoryCount)
  /\ (forall now mtx s,
        0 < maxHistoryCount ->
        Z.of_nat (length (History mtx)) = maxHistoryCount ->
        HE.Status <$> CurrentSubStatus mtx <> Some s ->
        History (SetSubStatus maxHistoryCount now mtx s)
        = tail (History mtx) ++ [new_entry now s])
  /\ (forall now mtx ss,
        0 < maxHistoryCount ->
        History mtx = [] -> HistorySummary mtx = [] -> NoDup ss ->
        let mtx' := SetSubStatuses maxHistoryCount now mtx ss in
        HE.Status <$> History mtx'
        = drop (length ss - Z.to_nat maxHistoryCount) ss
        /\ SE.Status <$> HistorySummary mtx' = ss
        /\ length (History mtx')
           = Nat.min (length ss) (Z.to_nat maxHistoryCount)
        /\ length (HistorySummary mtx') = length ss).
Proof.
  intros Hmax. split; [ | split; [ | split]].
  - intros now mtx s. now apply length_SetSubStatus.
  - intros now mtx action info err. now apply length_AddSubStatusAction.
  - intros now mtx s Hpos Hfull Htail. rewrite History_SetSubStatus.
    destruct (Z.eqb_spec maxHistoryCount 0); [lia | ].
    unfold CurrentSubStatus in Htail.
    rewrite bool_decide_eq_false_2 by exact Htail.
    unfold evict. rewrite length_app. cbn [length].
    destruct (Z.ltb_spec maxHistoryCount
                (Z.of_nat (length (History mtx) + 1))); [ | lia].
    destruct (History mtx); [cbn in *; lia | reflexivity].
  - intros now mtx ss Hpos Hh Hs Hnodup. cbn zeta.
    destruct (holds_SetSubStatuses ss now mtx [] Hpos) as [H1 H2].
    { split; [now rewrite Hh | now rewrite Hs]. }
    { exact Hnodup. }
    cbn [app] in *. split; [exact H1 | ]. split; [exact H2 | ].
    split.
    + rewrite <- (length_fmap HE.Status), H1, length_drop. lia.
    + now rewrite <- (length_fmap SE.Status), H2.
Qed.

End History.

Lemma SetSubStatus_same_status_witness :
  TxHistory.SetSubStatus 50 5 Scenarios.received "Received"
  = Scenarios.received.
Proof.
  exact (proj1 (SetSubStatus_same_status 50 5 Scenarios.received "Received")
           eq_refl).
Defined.

Lemma history_bounded_witness :
  length (History (TxHistory.SetSubStatuses 50 0 (Scenarios.tx "ns1/t" 0 0)
                     Scenarios.hundred_statuses)) = 50%nat
  /\ length (HistorySummary
               (TxHistory.SetSubStatuses 50 0 (Scenarios.tx "ns1/t" 0 0)
                  Scenarios.hundred_statuses)) = 100%nat.
Proof.
  destruct (history_bounded 50 ltac:(discriminate)) as (_ & _ & _ & H).
  destruct (H 0 (Scenarios.tx "ns1/t" 0 0) Scenarios.hundred_statuses
              eq_refl eq_refl eq_refl) as (_ & _ & Hh & Hs).
  { apply (bool_decide_unpack _). vm_compute. exact I. }
  split; [exact Hh | exact Hs].
Defined.

(** ** The policy loop *)

Section Resubmission.

Import PolicyLoop.

Variable maxHistoryCount : Z.
Variable resubmitInterval : Z.

Lemma SetSubStatus_fields (now : Z) (m : ManagedTX) (s : string) :
  TransactionHash (TxHistory.SetSubStatus maxHistoryCount now m s)
  = TransactionHash m
  /\ LastSubmit (TxHistory.SetSubStatus maxHistoryCount now m s)
     = LastSubmit m.
Proof.
  unfold TxHistory.SetSubStatus.
  destruct (maxHistoryCount =? 0); [now split | ].
  now destruct (bool_decide _).
Qed.

Lemma AddSubStatusAction_fields (now : Z) (m : ManagedTX) (action : string)
    (info err : option string) :
  TransactionHash (TxHistory.AddSubStatusAction maxHistoryCount now m action
                     info err)
  = TransactionHash m
  /\ LastSubmit (TxHistory.AddSubStatusAction maxHistoryCount now m action
                   info err)
     = LastSubmit m.
Proof.
  unfold TxHistory.AddSubStatusAction.
  destruct (maxHistoryCount =? 0); [now split | ].
  cbn [TransactionHash LastSubmit TxHistory.with_history].
  destruct (History m); [apply SetSubStatus_fields | now split].
Qed.

(** A send that returns a hash other than the one registered. *)
Lemma submit_new_hash (w : world) (p : pendingState) (old new g : string) :
  trackingTransactionHash p = old ->
  old <> "" ->
  gasPrice w = Ok g ->
  TransactionSend w = inl new ->
  new <> old ->
  let p' := fst (submit maxHistoryCount w p) in
  let ns := snd (submit maxHistoryCount w p) in
  TransactionHash (mtx p') = new
  /\ LastSubmit (mtx p') = Some (now w)
  /\ ns = [RemovedTransaction old; NewTransaction new]
  /\ (Notify w (RemovedTransaction old) = None ->
      Notify w (NewTransaction new) = None ->
      trackingTransactionHash p' = new).
Proof.
  intros Hold Hne Hgas Hsend Hnew. unfold submit. rewrite Hgas, Hsend.
  set (m2 := TxHistory.AddSubStatusAction maxHistoryCount (now w) _ _ _ _).
  assert (Hm2 : TransactionHash m2 = new /\ LastSubmit m2 = Some (now w)).
  { subst m2.
    destruct (AddSubStatusAction_fields (now w)
                (submitted (mtx p) new (FirstSubmit (mtx p)) (now w))
                TxHistory.TxActionSubmitTransaction None None) as [-> ->].
    now split. }
  destruct Hm2 as [Hhash Hlast].
  unfold trackSubmittedTransaction.
  cbn [trackingTransactionHash mtx set_mtx]. rewrite Hold, Hhash.
  destruct (decide (old = new)) as [Heq|_]; [congruence | ].
  destruct (decide (old = "")) as [Heq|_]; [congruence | ].
  cbn [app].
  destruct (forallb _ _) eqn:Hok;
    cbn [fst snd mtx set_mtx set_tracking trackingTransactionHash];
    destruct (SetSubStatus_fields (now w) m2 TxHistory.TxSubStatusTracking)
      as [-> ->];
    (split; [exact Hhash | ]); (split; [exact Hlast | ]);
    (split; [reflexivity | ]).
  - reflexivity.
  - intros Hrem Hadd. cbn [forallb] in Hok. rewrite Hrem, Hadd in Hok.
    rewrite bool_decide_eq_true_2 in Hok by reflexivity. discriminate Hok.
Qed.

(** C4.  When a transaction is sent again, because the resubmit interval
    has passed or because its first submission was cleared, and the
    connector returns a hash other than the registered one, the
    confirmations manager is notified [RemovedTransaction] of the old hash
    first and [NewTransaction] of the new hash next, and the record's
    [transactionHash] and [lastSubmit] are those of the new submission. *)
Theorem resubmit_new_hash (w : world) (p : pendingState)
    (old new g : string) :
  confirmed p = false ->
  trackingTransactionHash p = old ->
  TransactionHash (mtx p) = old ->
  old <> "" ->
  (FirstSubmit (mtx p) = None
   \/ exists first t,
        FirstSubmit (mtx p) = Some first /\ Receipt (mtx p) = None
        /\ LastSubmit (mtx p) = Some t /\ resubmitInterval < now w - t) ->
  gasPrice w = Ok g ->
  TransactionSend w = inl new ->
  new <> old ->
  let p' := fst (execPolicy maxHistoryCount resubmitInterval w p) in
  let ns := snd (execPolicy maxHistoryCount resubmitInterval w p) in
  TransactionHash (mtx p') = new
  /\ LastSubmit (mtx p') = Some (now w)
  /\ ns = [RemovedTransaction old; NewTransaction new]
  /\ (Notify w (RemovedTransaction old) = None ->
      Notify w (NewTransaction new) = None ->
      trackingTransactionHash p' = new).
Proof.
  intros Hconf Hold Hhash Hne Hdue Hgas Hsend Hnew.
  assert (Hexec : execPolicy maxHistoryCount resubmitInterval w p
                  = submit maxHistoryCount w p).
  { unfold execPolicy. rewrite Hconf.
    destruct Hdue as [-> | (first & t & -> & -> & -> & Hlate)];
      [reflexivity | ].
    rewrite Hold, Hhash.
    destruct (decide (old = old)); [ | congruence].
    apply Z.ltb_lt in Hlate. now rewrite Hlate. }
  rewrite Hexec.
  now apply (submit_new_hash w p old new g).
Qed.

End Resubmission.

Lemma resubmit_new_hash_witness :
  snd (PolicyLoop.execPolicy 50 300 Scenarios.second_send Scenarios.resubmitted)
  = [PolicyLoop.RemovedTransaction "0xhashA";
     PolicyLoop.NewTransaction "0xhashB"].
Proof.
  destruct (resubmit_new_hash 50 300 Scenarios.second_send
              Scenarios.resubmitted "0xhashA" "0xhashB" "12345"
              eq_refl eq_refl eq_refl ltac:(discriminate)
              (or_introl eq_refl) eq_refl eq_refl ltac:(discriminate))
    as (_ & _ & H & _).
  exact H.
Defined.

(** ** The Delete request *)

Section DeleteRequest.

Import PolicyLoop.

Lemma find_inflight_Some (inflight : list pendingState) (id : string)
    (i : nat) (p : pendingState) :
  find_inflight inflight id = Some (i, p) ->
  inflight !! i = Some p /\ ID (mtx p) = id.
Proof.
  revert i. induction inflight as [ | q rest IH]; intros i; [discriminate | ].
  cbn [find_inflight].
  destruct (decide (ID (mtx q) = id)) as [Hid|_].
  - intros [= <- <-]. now split.
  - destruct (find_inflight rest id) as [[j p']|]; [ | discriminate].
    cbn. intros [= <- <-]. now apply IH.
Qed.

(** The repository's tests of the Delete request against the two
    variants of the handler: the one written in the words of the
    specification fails [TestExecPolicyDeleteInflightSync], the mock's
    expectation of a [DeleteTransaction] call being unmet. *)
Lemma delete_tests :
  TestExecPolicyDeleteInflightSync processPolicyAPIRequests = true
  /\ TestExecPolicyDeleteNotFound processPolicyAPIRequests = true
  /\ TestExecPolicyGetTxFail processPolicyAPIRequests = true
  /\ TestExecPolicyDeleteFail processPolicyAPIRequests = true
  /\ TestBadTransactionAPIRequest processPolicyAPIRequests = true
  /\ TestExecPolicyDeleteInflightSync processPolicyAPIRequests_deferred = false
  /\ TestExecPolicyDeleteNotFound processPolicyAPIRequests_deferred = true.
Proof. repeat split; reflexivity. Qed.

(** C5, as the specification states it, fails on the repository's
    test: for the transaction in flight the deletion from persistence is not
    left to the next cycle, [DeleteTransaction] is called within the
    request; a handler that leaves it out does not meet the expectations of
    the test's persistence mock. *)
Lemma delete_inflight_is_synchronous :
  processPolicyAPIRequests Scenarios.delete_mock Scenarios.sample_inflight
    [Scenarios.delete_sample]
  = ([mkPending sampleTX false true ""],
     [CallDeleteTransaction (ID sampleTX)],
     [respond_ok sampleTX])
  /\ TestExecPolicyDeleteInflightSync processPolicyAPIRequests = true
  /\ processPolicyAPIRequests_deferred Scenarios.delete_mock
       Scenarios.sample_inflight [Scenarios.delete_sample]
     = ([mkPending sampleTX false true ""], [], [respond_ok sampleTX])
  /\ TestExecPolicyDeleteInflightSync processPolicyAPIRequests_deferred
     = false.
Proof. repeat split; reflexivity. Qed.

(** C5, amended.  A Delete request for a transaction that is in flight
    deletes it from persistence within the request, sets the record's
    [remove] and answers OK; for one that is not in flight but is in
    persistence, it deletes it directly and answers OK; for one found
    nowhere it answers with FF21067, and neither the in-flight set nor the
    persistence is changed. *)
Theorem delete_request (tp : TransactionPersistence)
    (inflight : list pendingState) (id : string) :
  let req := mkAPIRequest policyEngineAPIRequestTypeDelete id in
  (forall i p,
     find_inflight inflight id = Some (i, p) ->
     DeleteTransaction tp id = None ->
     processPolicyAPIRequests tp inflight [req]
     = (<[i := set_remove p true]> inflight,
        [CallDeleteTransaction id], [respond_ok (mtx p)])
     /\ (<[i := set_remove p true]> inflight) !! i
        = Some (set_remove p true)
     /\ remove (set_remove p true) = true
     /\ status (respond_ok (mtx p)) = StatusOK)
  /\ (forall m,
        find_inflight inflight id = None ->
        GetTransactionByID tp id = Ok (Some m) ->
        DeleteTransaction tp id = None ->
        processPolicyAPIRequests tp inflight [req]
        = (inflight,
           [CallGetTransactionByID id; CallDeleteTransaction id],
           [respond_ok m]))
  /\ (find_inflight inflight id = None ->
      GetTransactionByID tp id = Ok None ->
      processPolicyAPIRequests tp inflight [req]
      = (inflight, [CallGetTransactionByID id],
         [respond_error MsgTransactionNotFound])).
Proof.
  cbn zeta. unfold processPolicyAPIRequests.
  cbn [processRequests]. unfold processRequest.
  cbn [txID requestType].
  split; [ | split].
  - intros i p Hfind Hdel. rewrite Hfind, Hdel. cbn [app].
    split; [reflexivity | ]. split; [ | now split].
    apply list_lookup_insert_eq.
    apply find_inflight_Some in Hfind as [Hfind _].
    now apply lookup_lt_Some in Hfind.
  - intros m Hfind Hget Hdel. now rewrite Hfind, Hget, Hdel.
  - intros Hfind Hget. now rewrite Hfind, Hget.
Qed.

End DeleteRequest.

Lemma delete_request_witness :
  PolicyLoop.processPolicyAPIRequests Scenarios.delete_mock
    Scenarios.sample_inflight [Scenarios.delete_sample]
  = ([PolicyLoop.mkPending PolicyLoop.sampleTX false true ""],
     [PolicyLoop.CallDeleteTransaction (ID PolicyLoop.sampleTX)],
     [PolicyLoop.respond_ok PolicyLoop.sampleTX]).
Proof.
  destruct (delete_request Scenarios.delete_mock Scenarios.sample_inflight
              (ID PolicyLoop.sampleTX)) as [H _].
  destruct (H 0%nat (PolicyLoop.mkPending PolicyLoop.sampleTX false false "")
              eq_refl eq_refl) as [Hrun _].
  exact Hrun.
Defined.

(** ** The repository's tests, run on the models *)

Section Tests.

Import TxHistory.

Let mtx0 : ManagedTX := Scenarios.tx "ns1/test" 0 0.

Let counts (m : ManagedTX) : list (list Z) :=
  (fun e => AE.Count <$> HE.Actions e) <$> History m.

Let errors (m : ManagedTX) : list (list (option string)) :=
  (fun e => AE.LastError <$> HE.Actions e) <$> History m.

Let actions (m : ManagedTX) : list (list string) :=
  (fun e => AE.Action <$> HE.Actions e) <$> History m.

(** [TestManagedTXSubStatus]: a hundred [Received] make one entry, a
    [Tracking] makes two, and a hundred rounds of [Stale], [Tracking] stop
    at the cap of 50. *)
Lemma TestManagedTXSubStatus :
  let m1 := SetSubStatuses 50 0 mtx0 (repeat TxSubStatusReceived 100) in
  let m2 := SetSubStatus 50 100 m1 TxSubStatusTracking in
  let m3 := SetSubStatuses 50 101 m2
              (concat (repeat [TxSubStatusStale; TxSubStatusTracking] 100)) in
  CurrentSubStatus mtx0 = None
  /\ length (History m1) = 1%nat
  /\ HE.Status <$> CurrentSubStatus m1 = Some "Received"
  /\ length (History m2) = 2%nat
  /\ length (History m3) = 50%nat.
Proof. vm_compute. repeat split. Qed.

(** [TestManagedTXSubStatusRepeat]: a status seen before adds to the
    history, not to the summary. *)
Lemma TestManagedTXSubStatusRepeat :
  let m1 := SetSubStatus 50 0 mtx0 TxSubStatusReceived in
  let m2 := SetSubStatus 50 1 m1 TxSubStatusTracking in
  let m3 := SetSubStatus 50 2 m2 TxSubStatusReceived in
  (length (History m1), length (HistorySummary m1)) = (1%nat, 1%nat)
  /\ (length (History m2), length (HistorySummary m2)) = (2%nat, 2%nat)
  /\ (length (History m3), length (HistorySummary m3)) = (3%nat, 2%nat).
Proof. vm_compute. repeat split. Qed.

(** [TestManagedTXSubStatusAction], the counts it asserts: four actions
    under [Received], the second repeated twice; five summary rows, then six
    after [Confirmed], and six still after what had been seen before. *)
Lemma TestManagedTXSubStatusAction :
  let m1 := SetSubStatus 50 0 mtx0 TxSubStatusReceived in
  let m2 := AddSubStatusAction 50 1 m1 TxActionAssignNonce None None in
  let m3 := AddSubStatusAction 50 2 m2 TxActionRetrieveGasPrice None
              (Some "{gasError:12345}") in
  let m4 := AddSubStatusAction 50 3 m3 TxActionRetrieveGasPrice
              (Some "{info:helloworld}") (Some "{error:nogood}") in
  let m5 := AddSubStatusAction 50 4 m4 TxActionRetrieveGasPrice None
              (Some "{gasError:67890}") in
  let m6 := AddSubStatusAction 50 5 m5 TxActionSubmitTransaction
              (Some "{reason:known_transaction}") None in
  let m7 := AddSubStatusAction 50 6 m6 TxActionReceiveReceipt
              (Some "{receiptId:123456}") None in
  let m8 := AddSubStatusAction 50 8
              (SetSubStatus 50 7 m7 TxSubStatusConfirmed)
              TxActionReceiveReceipt (Some "{receiptId:123456}") None in
  let m9 := AddSubStatusAction 50 10
              (SetSubStatus 50 9 m8 TxSubStatusReceived)
              TxActionAssignNonce None None in
  counts m2 = [[1]]
  /\ counts m4 = [[1; 2]]
  /\ errors m5 = [[None; Some "{gasError:67890}"]]
  /\ counts m7 = [[1; 3; 1; 1]]
  /\ length (HistorySummary m7) = 5%nat
  /\ length (HistorySummary m8) = 6%nat
  /\ length (HistorySummary m9) = 6%nat.
Proof. vm_compute. repeat split. Qed.

(** [TestManagedTXSubStatusMaxEntries]: a hundred unique statuses leave
    50 entries. *)
Lemma TestManagedTXSubStatusMaxEntries :
  length (History (SetSubStatuses 50 0 mtx0 Scenarios.hundred_statuses))
  = 50%nat.
Proof. vm_compute. reflexivity. Qed.

(** [TestMaxHistoryCountSetToZero]: with a cap of 0 both lists stay
    empty. *)
Lemma TestMaxHistoryCountSetToZero :
  let m := AddSubStatusAction 0 1 (SetSubStatus 0 0 mtx0 TxSubStatusReceived)
             TxActionSubmitTransaction None None in
  History m = [] /\ HistorySummary m = [].
Proof. vm_compute. split; reflexivity. Qed.

(** [TestAddReceivedStatusWhenNothingSet]: an action on an empty history
    is recorded under an implicit [Received]. *)
Lemma TestAddReceivedStatusWhenNothingSet :
  let m := AddSubStatusAction 50 1 mtx0 TxActionSubmitTransaction None None in
  HE.Status <$> History m = ["Received"]
  /\ actions m = [["SubmitTransaction"]].
Proof. vm_compute. split; reflexivity. Qed.

(** [TestPolicyLoopResubmitNewTXID]: the first send registers hash 1;
    after the first submission is cleared, the second send returns hash 2
    and the confirmations manager hears of the removal of hash 1, then of
    hash 2, which the record then carries. *)
Lemma TestPolicyLoopResubmitNewTXID :
  let send h := PolicyLoop.mkWorld 100 (Ok "12345") (inl h) (fun _ => None) in
  let p0 := PolicyLoop.mkPending PolicyLoop.sampleTX false false "" in
  let '(p1, ns1) := PolicyLoop.execPolicy 50 100000000000 (send "0xhash1") p0 in
  let '(p1', ns1') := PolicyLoop.execPolicy 50 100000000000 (send "0xhash2") p1 in
  let cleared :=
    PolicyLoop.set_mtx p1
      {| ID := ID (PolicyLoop.mtx p1); Created := Created (PolicyLoop.mtx p1);
         From := From (PolicyLoop.mtx p1); Nonce := Nonce (PolicyLoop.mtx p1);
         Status := Status (PolicyLoop.mtx p1);
         TransactionHash := TransactionHash (PolicyLoop.mtx p1);
         FirstSubmit := None; LastSubmit := LastSubmit (PolicyLoop.mtx p1);
         Receipt := Receipt (PolicyLoop.mtx p1);
         History := History (PolicyLoop.mtx p1);
         HistorySummary := HistorySummary (PolicyLoop.mtx p1) |} in
  let '(p2, ns2) := PolicyLoop.execPolicy 50 100000000000 (send "0xhash2")
                      cleared in
  ns1 = [PolicyLoop.NewTransaction "0xhash1"]
  /\ TransactionHash (PolicyLoop.mtx p1) = "0xhash1"
  /\ ns1' = [] /\ TransactionHash (PolicyLoop.mtx p1') = "0xhash1"
  /\ ns2 = [PolicyLoop.RemovedTransaction "0xhash1";
            PolicyLoop.NewTransaction "0xhash2"]
  /\ TransactionHash (PolicyLoop.mtx p2) = "0xhash2"
  /\ Status (PolicyLoop.mtx p2) = TxStatusPending.
Proof. vm_compute. repeat split. Qed.

(** [TestNotifyConfirmationMgrFail]: every [Notify] fails.  The first
    cycle makes one notification, of the new hash; once another hash has
    been put in as the registered one, the next cycle makes two, the removal
    of that hash and the new hash again. *)
Lemma TestNotifyConfirmationMgrFail :
  let w := PolicyLoop.mkWorld 100 (Ok "12345") (inl "0xhash")
             (fun _ => Some "pop") in
  let p0 := PolicyLoop.mkPending PolicyLoop.sampleTX false false "" in
  let '(p1, ns1) := PolicyLoop.execPolicy 50 100000000000 w p0 in
  let '(p2, ns2) := PolicyLoop.execPolicy 50 100000000000 w
                      (PolicyLoop.set_tracking p1 "0xremoved") in
  ns1 = [PolicyLoop.NewTransaction "0xhash"]
  /\ PolicyLoop.trackingTransactionHash p1 = ""
  /\ ns2 = [PolicyLoop.RemovedTransaction "0xremoved";
            PolicyLoop.NewTransaction "0xhash"]
  /\ PolicyLoop.trackingTransactionHash p2 = "0xremoved".
Proof. vm_compute. repeat split. Qed.

End Tests.
